(** * Gene-expression matrix builder (blca-GEM.py): a shallow embedding

    The script walks a directory tree, reads every [*.tsv] file line by
    line, stores [gene -> sample -> value] in a dictionary of dictionaries
    and writes the pivoted table with pandas.

    Conventions of the embedding
    - a Python [str] is a [string]; a character is a code point below 256;
    - Python [int] parameters are [Z] (argparse accepts negative values);
    - a Python [dict] is an association list kept in insertion order;
    - an exception raised inside the [try] block is a value [Some msg]
      returned next to the state mutated so far. *)

From Stdlib Require Import String Ascii List ZArith Lia Bool Arith.
From Stdlib Require Import DecimalString.
Import ListNotations.

Local Open Scope string_scope.
Local Open Scope list_scope.

(* ================================================================== *)
(** ** Python string primitives *)
(* ================================================================== *)

Module PyStr.

Definition TAB : ascii := "009"%char.
Definition LF : ascii := "010"%char.
Definition CR : ascii := "013"%char.
Definition SLASH : ascii := "/"%char.
Definition DQUOTE : ascii := "034"%char.

Definition chr (c : ascii) : string := String c EmptyString.

(** [str.isspace] on one character, for code points below 256:
    TAB, LF, VT, FF, CR, FS, GS, RS, US, space, NEL and NBSP. *)
Definition is_space (c : ascii) : bool :=
  let n := nat_of_ascii c in
  (((9 <=? n) && (n <=? 13)) || ((28 <=? n) && (n <=? 32))
   || (n =? 133) || (n =? 160))%nat.

Fixpoint lstrip (s : string) : string :=
  match s with
  | EmptyString => EmptyString
  | String c s' => if is_space c then lstrip s' else s
  end.

Fixpoint rstrip (s : string) : string :=
  match s with
  | EmptyString => EmptyString
  | String c s' =>
      match rstrip s' with
      | EmptyString => if is_space c then EmptyString else chr c
      | r => String c r
      end
  end.

(** [s.strip()]: leading and trailing whitespace removed. *)
Definition strip (s : string) : string := rstrip (lstrip s).

(** [s.startswith(p)] *)
Fixpoint startswith (p s : string) : bool :=
  match p, s with
  | EmptyString, _ => true
  | String a p', String b s' => Ascii.eqb a b && startswith p' s'
  | String _ _, EmptyString => false
  end.

(** [s.endswith(p)] *)
Fixpoint endswith (p s : string) : bool :=
  match s with
  | EmptyString => String.eqb p EmptyString
  | String _ s' => String.eqb p s || endswith p s'
  end.

(** [s.split(sep)] for a non-empty separator, scanning left to right.
    [skip] counts the characters of a separator just matched that are
    still to be dropped.  The result is never empty: it is returned as
    its first field and the remaining ones. *)
Fixpoint split_aux (sep : string) (skip : nat) (s : string)
  : string * list string :=
  match s with
  | EmptyString => (EmptyString, [])
  | String c s' =>
      match skip with
      | S k => split_aux sep k s'
      | O =>
          if startswith sep s then
            let '(h, t) := split_aux sep (String.length sep - 1) s' in
            (EmptyString, h :: t)
          else
            let '(h, t) := split_aux sep 0 s' in
            (String c h, t)
      end
  end.

Definition split (sep s : string) : list string :=
  let '(h, t) := split_aux sep 0 s in h :: t.

(** [sep.join(l)] *)
Fixpoint join (sep : string) (l : list string) : string :=
  match l with
  | [] => EmptyString
  | [x] => x
  | x :: r => (x ++ sep ++ join sep r)%string
  end.

(** [c in s] for one character *)
Fixpoint contains_char (c : ascii) (s : string) : bool :=
  match s with
  | EmptyString => false
  | String a s' => Ascii.eqb a c || contains_char c s'
  end.

(** [str(n)] for a length *)
Definition str_of_nat (n : nat) : string :=
  NilEmpty.string_of_uint (Nat.to_uint n).

End PyStr.
Import PyStr.

(* ================================================================== *)
(** ** Python lists and dictionaries *)
(* ================================================================== *)

Module PyData.

(** [l[i]]: a negative index counts from the end; [None] is IndexError. *)
Definition index {A} (l : list A) (i : Z) : option A :=
  let n := Z.of_nat (List.length l) in
  if (0 <=? i)%Z then nth_error l (Z.to_nat i)
  else if (0 <=? n + i)%Z then nth_error l (Z.to_nat (n + i))
  else None.

(** [x in l] for a list of strings *)
Fixpoint mem (x : string) (l : list string) : bool :=
  match l with
  | [] => false
  | y :: r => String.eqb y x || mem x r
  end.

(** An insertion-ordered dictionary with string keys. *)
Definition dict (V : Type) := list (string * V).

Definition keys {V} (d : dict V) : list string := map fst d.

Fixpoint get {V} (d : dict V) (k : string) : option V :=
  match d with
  | [] => None
  | (k', v) :: r => if String.eqb k' k then Some v else get r k
  end.

Definition has {V} (d : dict V) (k : string) : bool :=
  match get d k with Some _ => true | None => false end.

(** [d[k] = v]: an existing key keeps its position, a new key goes last. *)
Fixpoint set {V} (d : dict V) (k : string) (v : V) : dict V :=
  match d with
  | [] => [(k, v)]
  | (k', v') :: r =>
      if String.eqb k' k then (k', v) :: r else (k', v') :: set r k v
  end.

End PyData.

Import PyData.

(* ================================================================== *)
(** ** The file system seen by [os.walk] and [open] *)
(* ================================================================== *)

Module Fs.

(** What [open(path, 'r')] and the text-mode reads of one file deliver:
    either [open] raises, or the reads deliver [lines] in turn (each as
    the iterator yields it, line ending included) and then reach the end
    of the file ([fail = None]) or raise ([fail = Some msg], e.g. a
    decoding or I/O error met after the lines already delivered). *)
Inductive file : Type :=
| OpenError (msg : string)
| Opened (lines : list string) (fail : option string).

(** A directory lists its entries in [os.scandir] order. *)
#[warning="-register-all"] Inductive fs_entry : Type :=
| FsFile (name : string) (f : file)
| FsDir (name : string) (children : list fs_entry).

(** [os.path.join(a, b)] (posixpath) *)
Definition path_join (a b : string) : string :=
  if startswith (chr SLASH) b then b
  else if String.eqb a EmptyString || endswith (chr SLASH) a
       then (a ++ b)%string
       else (a ++ chr SLASH ++ b)%string.

(** [os.path.basename(p)] (posixpath): what follows the last slash *)
Fixpoint basename (p : string) : string :=
  match p with
  | EmptyString => EmptyString
  | String _ r => if contains_char SLASH p then basename r else p
  end.

(** The non-directory entries of a directory, with what opening them
    gives. *)
Fixpoint nondirs (entries : list fs_entry) : list (string * file) :=
  match entries with
  | [] => []
  | FsFile n f :: r => (n, f) :: nondirs r
  | FsDir _ _ :: r => nondirs r
  end.

(** [os.walk], top-down: the triple of a directory (its [dirs] component
    is not used by the script and left out), then the walks of its
    sub-directories in listing order. *)
Fixpoint os_walk_entry (parent : string) (e : fs_entry)
  : list (string * list (string * file)) :=
  match e with
  | FsFile _ _ => []
  | FsDir name children =>
      let top := path_join parent name in
      (top, nondirs children) :: flat_map (os_walk_entry top) children
  end.

Definition os_walk (top : string) (entries : list fs_entry)
  : list (string * list (string * file)) :=
  (top, nondirs entries) :: flat_map (os_walk_entry top) entries.

End Fs.
Import Fs.

(* ================================================================== *)
(** ** pandas: the part of [DataFrame] the script uses *)
(* ================================================================== *)

(** pandas is a library the script imports; what follows models the
    documented behaviour of the five calls of lines 80-94 on a frame of
    strings with unique labels, and of the [csv] writer behind [to_csv]
    (POSIX line terminator, default quoting). *)

Module Pandas.

(** A frame of object cells; [None] is a missing cell (NaN). *)
Record DataFrame : Type := mkFrame {
  df_index : list string;
  df_index_name : option string;
  df_columns : list string;
  df_values : list (list (option string))
}.

(** [pd.DataFrame(index=..., columns=...)]: every cell missing *)
Definition new_frame (index columns : list string) : DataFrame :=
  mkFrame index None columns
          (map (fun _ => map (fun _ => None) columns) index).

(** Position of a label (labels are unique in this program). *)
Fixpoint position (x : string) (l : list string) : option nat :=
  match l with
  | [] => None
  | y :: r =>
      if String.eqb y x then Some 0
      else match position x r with Some n => Some (S n) | None => None end
  end.

Fixpoint update {A} (n : nat) (f : A -> A) (l : list A) : list A :=
  match l, n with
  | [], _ => []
  | x :: r, O => f x :: r
  | x :: r, S k => x :: update k f r
  end.

(** [df.at[r, c] = v] for labels present in the frame (the script only
    writes at labels it built the frame from). *)
Definition at_set (df : DataFrame) (r c v : string) : DataFrame :=
  match position r (df_index df), position c (df_columns df) with
  | Some i, Some j =>
      mkFrame (df_index df) (df_index_name df) (df_columns df)
              (update i (update j (fun _ => Some v)) (df_values df))
  | _, _ => df
  end.

(** [df.at[r, c]] *)
Definition at_get (df : DataFrame) (r c : string) : option (option string) :=
  match position r (df_index df), position c (df_columns df) with
  | Some i, Some j =>
      match nth_error (df_values df) i with
      | Some row => nth_error row j
      | None => None
      end
  | _, _ => None
  end.

(** [df.fillna(x)] *)
Definition fillna (x : string) (df : DataFrame) : DataFrame :=
  mkFrame (df_index df) (df_index_name df) (df_columns df)
          (map (map (fun c => match c with
                              | None => Some x
                              | Some v => Some v
                              end)) (df_values df)).

(** [df.index.name = n] *)
Definition set_index_name (n : string) (df : DataFrame) : DataFrame :=
  mkFrame (df_index df) (Some n) (df_columns df) (df_values df).

(** One field of [csv.writer] with minimal quoting: a field holding the
    delimiter, the quote character or a line break is quoted, its quote
    characters doubled. *)
Fixpoint needs_quote (delim : ascii) (s : string) : bool :=
  match s with
  | EmptyString => false
  | String c r =>
      Ascii.eqb c delim || Ascii.eqb c DQUOTE || Ascii.eqb c LF
      || Ascii.eqb c CR || needs_quote delim r
  end.

Fixpoint double_quotes (s : string) : string :=
  match s with
  | EmptyString => EmptyString
  | String c r =>
      if Ascii.eqb c DQUOTE then String c (String c (double_quotes r))
      else String c (double_quotes r)
  end.

Definition csv_field (delim : ascii) (s : string) : string :=
  if needs_quote delim s
  then (chr DQUOTE ++ double_quotes s ++ chr DQUOTE)%string
  else s.

(** [writer.writerow(fields)]; a row that is one empty field is written
    as a pair of quotes. *)
Definition writerow (delim : ascii) (fields : list string) : string :=
  match fields with
  | [EmptyString] => (chr DQUOTE ++ chr DQUOTE ++ chr LF)%string
  | _ => (join (chr delim) (map (csv_field delim) fields) ++ chr LF)%string
  end.

(** The rows [to_csv] writes: the header (index name, then the column
    labels), then one row per index label; a missing cell is written
    empty. *)
Definition csv_rows (df : DataFrame) : list (list string) :=
  (match df_index_name df with Some n => n | None => EmptyString end
     :: df_columns df)
  :: map (fun '(label, row) =>
            label :: map (fun c => match c with
                                   | Some v => v
                                   | None => EmptyString
                                   end) row)
         (combine (df_index df) (df_values df)).

(** [df.to_csv(path, sep=delim)]: the text written *)
Definition to_csv (delim : ascii) (df : DataFrame) : string :=
  String.concat EmptyString (map (writerow delim) (csv_rows df)).

End Pandas.
Import Pandas.

(* ================================================================== *)
(** ** The script *)
(* ================================================================== *)

Module GEM.

Record params : Type := mkParams {
  gene_column_index : Z;
  expression_column_index : Z;
  skip_rows : Z
}.

(** The defaults of the signature and of the command line. *)
Definition default_params : params := mkParams 1 5 6.

(** The two containers the function fills, and what it prints. *)
Record state : Type := mkState {
  gene_data : dict (dict string);
  sample_ids : list string;
  stdout : list string
}.

Inductive outcome (A : Type) : Type :=
| Normal (a : A)
| Raised (msg : string).
Arguments Normal {A} a.
Arguments Raised {A} msg.

(** Lines 33-36: the paths of the files whose name ends in [.tsv], each
    with what opening it will give. *)
Definition find_tsv_files (input_dir : string) (fs : list fs_entry)
  : list (string * file) :=
  flat_map
    (fun '(root, files) =>
       map (fun '(name, f) => (path_join root name, f))
           (filter (fun '(name, _) => endswith ".tsv" name) files))
    (os_walk input_dir fs).

(** Line 43: [os.path.basename(file_path).split(".tsv")[0]] *)
Definition sample_id_of (file_path : string) : string :=
  hd EmptyString (split ".tsv" (basename file_path)).

(** Lines 44-45 *)
Definition register_sample (sample_id : string) (ids : list string)
  : list string :=
  if mem sample_id ids then ids else ids ++ [sample_id].

(** Lines 58-65: the fields of one line and the pair read from them;
    [Normal None] is the [continue] of a malformed line, [Raised] the
    IndexError of an index that is out of range on the negative side. *)
Definition parse_line (p : params) (line : string)
  : outcome (option (string * string)) :=
  let parts := split (chr TAB) (strip line) in
  if (Z.of_nat (List.length parts)
      <=? Z.max (gene_column_index p) (expression_column_index p))%Z
  then Normal None
  else
    match index parts (gene_column_index p) with
    | None => Raised "list index out of range"
    | Some gene_name =>
        match index parts (expression_column_index p) with
        | None => Raised "list index out of range"
        | Some expression_value => Normal (Some (gene_name, expression_value))
        end
    end.

(** Lines 68-72: the entry of the gene is created when missing, then the
    value is stored under the sample id.  The lookup of line 72 cannot
    raise KeyError, the key being present after line 69 (see
    [record_eq]). *)
Definition record (gd : dict (dict string)) (gene_name sample_id value : string)
  : dict (dict string) :=
  let gd1 := if has gd gene_name then gd else set gd gene_name [] in
  match get gd1 gene_name with
  | Some samples => set gd1 gene_name (set samples sample_id value)
  | None => gd1
  end.

(** Lines 57-72: the loop over the lines delivered.  The dictionary is
    updated in place, so what was stored before an exception stays. *)
Fixpoint process_lines (p : params) (sample_id : string) (ls : list string)
  (gd : dict (dict string)) : dict (dict string) * option string :=
  match ls with
  | [] => (gd, None)
  | line :: rest =>
      match parse_line p line with
      | Raised msg => (gd, Some msg)
      | Normal None => process_lines p sample_id rest gd
      | Normal (Some (gene_name, value)) =>
          process_lines p sample_id rest (record gd gene_name sample_id value)
      end
  end.

(** Lines 53-54: [n] calls of [readline]; at the end of the file
    [readline] returns the empty string and nothing is raised. *)
Fixpoint skip_header (n : nat) (ls : list string) (fail : option string)
  : outcome (list string) :=
  match n with
  | O => Normal ls
  | S k =>
      match ls with
      | _ :: r => skip_header k r fail
      | [] =>
          match fail with
          | None => skip_header k [] fail
          | Some msg => Raised msg
          end
      end
  end.

(** Lines 49-75 without the print: the dictionary after the file, and
    the exception caught, if any. *)
Definition process_file (p : params) (sample_id : string) (f : file)
  (gd : dict (dict string)) : dict (dict string) * option string :=
  match f with
  | OpenError msg => (gd, Some msg)
  | Opened ls fail =>
      match skip_header (Z.to_nat (skip_rows p)) ls fail with
      | Raised msg => (gd, Some msg)
      | Normal rest =>
          match process_lines p sample_id rest gd with
          | (gd', Some msg) => (gd', Some msg)
          | (gd', None) => (gd', fail)
          end
      end
  end.

Definition processing_message (file_path sample_id : string) : string :=
  ("Processing file: " ++ file_path
   ++ " (Sample ID: " ++ sample_id ++ ")")%string.

Definition error_message (file_path msg : string) : string :=
  ("Error processing file " ++ file_path ++ ": " ++ msg)%string.

(** Lines 42-75: one round of the loop over the files. *)
Definition process_one (p : params) (entry : string * file) (st : state)
  : state :=
  let '(file_path, f) := entry in
  let sample_id := sample_id_of file_path in
  let ids := register_sample sample_id (sample_ids st) in
  let out := stdout st ++ [processing_message file_path sample_id] in
  let '(gd, exn) := process_file p sample_id f (gene_data st) in
  mkState gd ids
          (match exn with
           | Some msg => out ++ [error_message file_path msg]
           | None => out
           end).

(** Lines 41-75 *)
Fixpoint process_files (p : params) (tsv_files : list (string * file))
  (st : state) : state :=
  match tsv_files with
  | [] => st
  | entry :: rest => process_files p rest (process_one p entry st)
  end.

(** Lines 83-85 *)
Definition fill_frame (df : DataFrame) (gd : dict (dict string)) : DataFrame :=
  fold_left
    (fun df1 '(gene_name, samples) =>
       fold_left (fun df2 '(sample_id, value) =>
                    at_set df2 gene_name sample_id value)
                 samples df1)
    gd df.

(** Lines 80-91: the frame that is written. *)
Definition build_frame (gd : dict (dict string)) (ids : list string)
  : DataFrame :=
  set_index_name "Gene"
    (fillna "NA" (fill_frame (new_frame (keys gd) ids) gd)).

(** What a run leaves behind: the lines printed, and the text written at
    the output path (writing the file is taken to succeed). *)
Record run : Type := mkRun {
  run_stdout : list string;
  run_output_path : string;
  run_output_text : string
}.

(** Lines 28-29: the two containers start empty. *)
Definition initial (out : list string) : state := mkState [] [] out.

(** The state after the loop over the files (lines 25-75). *)
Definition aggregate (fs : list fs_entry) (input_dir : string) (p : params)
  : state :=
  let tsv_files := find_tsv_files input_dir fs in
  process_files p tsv_files
    (initial
       [("Searching for TSV files in: " ++ input_dir)%string;
        ("Found " ++ str_of_nat (List.length tsv_files) ++ " TSV files")%string]).

Definition parse_gene_expression_files (fs : list fs_entry)
  (input_dir output_file : string) (p : params) : run :=
  let st := aggregate fs input_dir p in
  let df_output := build_frame (gene_data st) (sample_ids st) in
  mkRun (stdout st
           ++ [("Processed " ++ str_of_nat (List.length (sample_ids st))
                ++ " samples with "
                ++ str_of_nat (List.length (gene_data st)) ++ " genes")%string;
               ("Gene expression matrix saved to " ++ output_file)%string])
        output_file
        (to_csv TAB df_output).

End GEM.
Import GEM.

(* ================================================================== *)
(** ** Notions the specification uses to describe the script *)
(* ================================================================== *)

Module Spec.

Fixpoint drop (n : nat) (s : string) : string :=
  match n, s with
  | O, _ => s
  | S _, EmptyString => EmptyString
  | S k, String _ r => drop k r
  end.

(** The text with the first occurrence of [sep] deleted (the wording of
    the specification for the sample id). *)
Fixpoint remove_first (sep s : string) : string :=
  match s with
  | EmptyString => EmptyString
  | String c r =>
      if startswith sep s then drop (String.length sep) s
      else String c (remove_first sep r)
  end.

(** The line with only its line ending removed (the wording of the
    specification for what is split into fields). *)
Fixpoint remove_line_ending (s : string) : string :=
  match s with
  | EmptyString => EmptyString
  | String c r =>
      if Ascii.eqb c LF && String.eqb r EmptyString then EmptyString
      else String c (remove_line_ending r)
  end.

Fixpoint count_char (c : ascii) (s : string) : nat :=
  match s with
  | EmptyString => 0
  | String a r => (if Ascii.eqb a c then 1 else 0) + count_char c r
  end.

Fixpoint all_space (s : string) : bool :=
  match s with
  | EmptyString => true
  | String c r => is_space c && all_space r
  end.

(** The distinct elements of a sequence, each at its first occurrence. *)
Fixpoint first_seen (l : list string) : list string :=
  match l with
  | [] => []
  | x :: r => x :: filter (fun y => negb (String.eqb x y)) (first_seen r)
  end.

(** A record is a gene name, a sample id and a value. *)
Definition record_t : Type := string * string * string.

Definition gene_of (r : record_t) : string := fst (fst r).

Definition store (gd : dict (dict string)) (r : record_t)
  : dict (dict string) :=
  let '(g, s, v) := r in record gd g s v.

(** The records a run stores, in the order it stores them: those of the
    lines read until the file ends or an exception leaves the file. *)
Fixpoint line_records (p : params) (sample_id : string) (ls : list string)
  : list record_t :=
  match ls with
  | [] => []
  | line :: rest =>
      match parse_line p line with
      | Raised _ => []
      | Normal None => line_records p sample_id rest
      | Normal (Some (g, v)) => (g, sample_id, v) :: line_records p sample_id rest
      end
  end.

Definition file_records (p : params) (sample_id : string) (f : file)
  : list record_t :=
  match f with
  | OpenError _ => []
  | Opened ls fail =>
      match skip_header (Z.to_nat (skip_rows p)) ls fail with
      | Raised _ => []
      | Normal rest => line_records p sample_id rest
      end
  end.

Definition run_records (p : params) (tsv_files : list (string * file))
  : list record_t :=
  flat_map (fun '(path, f) => file_records p (sample_id_of path) f) tsv_files.

(** The value stored for a pair, if any. *)
Definition lookup (gd : dict (dict string)) (g s : string) : option string :=
  match get gd g with
  | Some samples => get samples s
  | None => None
  end.


(** The value of the last record of a pair in a sequence of records. *)
Fixpoint last_value (rs : list record_t) (g s : string) : option string :=
  match rs with
  | [] => None
  | (g', s', v) :: rest =>
      match last_value rest g s with
      | Some w => Some w
      | None => if String.eqb g' g && String.eqb s' s then Some v else None
      end
  end.

(** The entries of the mapping, in iteration order. *)
Definition entries (gd : dict (dict string)) : list record_t :=
  flat_map (fun '(g, samples) => map (fun '(s, v) => (g, s, v)) samples) gd.

(** The cells of a frame given by a function of the two labels. *)
Definition matrix (index columns : list string)
  (cell : string -> string -> option string) : list (list (option string)) :=
  map (fun r => map (cell r) columns) index.

(** The text of a cell of the table: the stored value, or [NA]. *)
Definition cell_text (gd : dict (dict string)) (g s : string) : string :=
  match lookup gd g s with Some v => v | None => "NA" end.

(** The table the specification describes: a header of [Gene] and the
    sample ids, then one row per gene of the mapping. *)
Definition table (gd : dict (dict string)) (ids : list string)
  : list (list string) :=
  ("Gene" :: ids) :: map (fun g => g :: map (cell_text gd g) ids) (keys gd).

(** A file that cannot be opened, or whose reads end in an exception. *)
Definition fails (f : file) : bool :=
  match f with
  | OpenError _ => true
  | Opened _ (Some _) => true
  | Opened _ None => false
  end.

(** Keys are unique in the mapping and in each of its entries. *)
Definition well_formed (gd : dict (dict string)) : Prop :=
  NoDup (keys gd) /\ Forall (fun e => NoDup (keys (snd e))) gd.

(** The sample ids of the discovered files, in discovery order. *)
Definition discovered_ids (tsv_files : list (string * file)) : list string :=
  map (fun e => sample_id_of (fst e)) tsv_files.

(** The text of the table of a sequence of records: columns are the
    sample ids in first-seen order, rows the genes in the order of their
    first record, a cell the value of the last record of its pair. *)
Definition rows_of_records (ids : list string) (rs : list record_t)
  : list (list string) :=
  ("Gene" :: first_seen ids)
  :: map (fun g =>
            g :: map (fun s => match last_value rs g s with
                               | Some v => v
                               | None => "NA"
                               end)
                     (first_seen ids))
         (first_seen (map gene_of rs)).

Definition text_of_records (ids : list string) (rs : list record_t) : string :=
  String.concat EmptyString (map (writerow TAB) (rows_of_records ids rs)).

(** *** Statements as the specification words them *)


(** The sample id is the base name with the first [.tsv] deleted. *)
Definition sample_id_deletes_first_tsv : Prop :=
  forall path : string,
    sample_id_of path = remove_first ".tsv" (basename path).

(** A file that fails leaves no record in the mapping. *)
Definition failing_file_stores_nothing : Prop :=
  forall (p : params) (path : string) (f : file) (st : state),
    fails f = true ->
    gene_data (process_one p (path, f) st) = gene_data st.

(** The column of a file that fails is all [NA] when no other file has
    its sample id. *)
Definition failed_file_column_is_NA : Prop :=
  forall (p : params) (files : list (string * file)) (out : list string)
         (path : string) (f : file),
    In (path, f) files -> fails f = true ->
    (forall path' f', In (path', f') files ->
                      sample_id_of path' = sample_id_of path ->
                      (path', f') = (path, f)) ->
    let st := process_files p files (initial out) in
    forall g, In g (keys (gene_data st)) ->
      at_get (build_frame (gene_data st) (sample_ids st)) g (sample_id_of path)
      = Some (Some "NA").

(** Processing a file that fails always changes the mapping or the
    sample ids. *)
Definition failure_changes_state : Prop :=
  forall (p : params) (path : string) (f : file) (st : state),
    fails f = true ->
    (gene_data (process_one p (path, f) st),
     sample_ids (process_one p (path, f) st))
    <> (gene_data st, sample_ids st).

End Spec.
Import Spec.

(* ================================================================== *)
(** ** Concrete inputs used below *)
(* ================================================================== *)

Module Examples.

Definition tsv_line (fields : list string) : string := join (chr TAB) fields.

Definition with_lf (s : string) : string := (s ++ chr LF)%string.

(** Line 7 of the two files of the end-to-end example. *)
Definition line_A : string :=
  tsv_line ["chr1"; "TP53"; "."; "."; "."; "12.3"].
Definition line_B : string :=
  tsv_line ["chr1"; "TP53"; "."; "."; "."; "9.8"].

Definition six_headers : list string :=
  map with_lf ["# h1"; "# h2"; "# h3"; "# h4"; "# h5"; "# h6"].

(** A line whose last field ends in a space. *)
Definition padded_line : string :=
  with_lf (tsv_line ["chr1"; "TP53"; "."; "."; "."; "12.3 "]).


(** Indices that count from the end, and a line with two fields. *)
Definition negative_params : params := mkParams (-3) (-1) 0.
Definition two_fields : string := with_lf (tsv_line ["a"; "b"]).

(** A file whose reads raise after its seventh line. *)
Definition broken_after_line_7 : file :=
  Opened (six_headers ++ [with_lf line_A]) (Some "read error").

Definition readable_A : file :=
  Opened (six_headers ++ [with_lf line_A]) None.

(** A state in which sample [A] is registered already. *)
Definition state_with_A : state :=
  process_one default_params ("d1/A.tsv", readable_A) (initial []).

(** Two samples with different genes, the second in a sub-directory. *)
Definition line_C : string :=
  tsv_line ["chr17"; "BRCA1"; "."; "."; "."; "4.2"].

Definition two_sample_tree : list fs_entry :=
  [FsFile "A.tsv" readable_A;
   FsFile "notes.txt" (OpenError "denied");
   FsDir "sub" [FsFile "B.tsv" (Opened (six_headers ++ [with_lf line_C]) None)]].

(** The same discovered files in a tree without the text file. *)
Definition two_sample_tree' : list fs_entry :=
  [FsFile "A.tsv" readable_A;
   FsDir "sub" [FsFile "B.tsv" (Opened (six_headers ++ [with_lf line_C]) None)]].

(** A file with two lines for the same gene. *)
Definition line_A' : string :=
  tsv_line ["chr1"; "TP53"; "."; "."; "."; "7.7"].

Definition repeated_gene_files : list (string * file) :=
  [("d/A.tsv", Opened (six_headers ++ [with_lf line_A; with_lf line_A']) None)].

(** A line with three fields, read with indices that count from the
    end, then a line that is too short for them. *)
Definition three_fields : string := with_lf (tsv_line ["a"; "b"; "c"]).

Definition windows_line : string :=
  ("  " ++ line_A ++ chr CR ++ chr LF)%string.


(** Two files with the same base name in two directories. *)
Definition same_name_files : list (string * file) :=
  [("d1/A.tsv", Opened (six_headers ++ [with_lf line_A; with_lf line_C]) None);
   ("d2/A.tsv", Opened (six_headers ++ [with_lf line_A']) None)].

End Examples.
Import Examples.

(* ================================================================== *)
(** ** Further notions, for the properties beyond the specification *)
(* ================================================================== *)

Module Extra.




(** [sep] occurs in [s]. *)
Definition occurs (sep s : string) : Prop :=
  exists a c, s = (a ++ sep ++ c)%string.



(** No field of a row needs quoting. *)
Definition plain_row (row : list string) : Prop :=
  Forall (fun s => needs_quote TAB s = false) row.

End Extra.
Import Extra.

(* ================================================================== *)
(** ** Facts on the string primitives *)
(* ================================================================== *)

Section StringFacts.

Lemma append_nil_r (s : string) : (s ++ EmptyString)%string = s.
Proof. induction s as [|c s IH]; simpl; [reflexivity | now rewrite IH]. Qed.

Lemma append_assoc (a b c : string) :
  ((a ++ b) ++ c)%string = (a ++ (b ++ c))%string.
Proof. induction a as [|x a IH]; simpl; [reflexivity | now rewrite IH]. Qed.

Lemma startswith_iff (p s : string) :
  startswith p s = true <-> exists r, s = (p ++ r)%string.
Proof.
  revert s. induction p as [|a p IH]; intros s; simpl.
  - split; [intros _; now exists s | reflexivity].
  - destruct s as [|b s].
    + split; [discriminate | intros [r Hr]; discriminate].
    + rewrite andb_true_iff, Ascii.eqb_eq, IH. split.
      * intros [-> [r ->]]. now exists r.
      * intros [r Hr]. injection Hr as -> ->. split; [reflexivity | now exists r].
Qed.

Lemma startswith_append (p r : string) : startswith p (p ++ r) = true.
Proof. apply startswith_iff. now exists r. Qed.

(** The first field of a split is the text before the first occurrence
    of the separator. *)
Lemma split_aux_first (sep : string) (c0 : ascii) (sep' : string) :
  sep = String c0 sep' ->
  forall pre suf,
    (forall a c, (pre ++ sep ++ suf)%string = (a ++ sep ++ c)%string ->
                 String.length pre <= String.length a) ->
    fst (split_aux sep 0 (pre ++ sep ++ suf)) = pre.
Proof.
  intros Hsep pre. induction pre as [|x pre IH]; intros suf Hfirst.
  - simpl. subst sep. cbn [append split_aux].
    assert (H : startswith (String c0 sep') (String c0 (sep' ++ suf)) = true)
      by (apply (startswith_append (String c0 sep') suf)).
    rewrite H. destruct (split_aux _ _ _); reflexivity.
  - cbn [append split_aux].
    destruct (startswith sep (String x (pre ++ sep ++ suf))) eqn:E.
    + exfalso. apply startswith_iff in E. destruct E as [r Hr].
      specialize (Hfirst EmptyString r). simpl in Hfirst.
      specialize (Hfirst Hr). lia.
    + destruct (split_aux sep 0 (pre ++ sep ++ suf)) as [h t] eqn:E2.
      simpl. f_equal.
      change h with (fst (h, t)). rewrite <- E2. apply IH.
      intros a c Hac.
      specialize (Hfirst (String x a) c). simpl in Hfirst.
      rewrite Hac in Hfirst. specialize (Hfirst eq_refl). lia.
Qed.

Lemma drop_append (a b : string) : drop (String.length a) (a ++ b) = b.
Proof. induction a as [|x a IH]; simpl; [now destruct b | exact IH]. Qed.

Lemma remove_first_at (sep : string) (c0 : ascii) (sep' : string) :
  sep = String c0 sep' ->
  forall pre suf,
    (forall a c, (pre ++ sep ++ suf)%string = (a ++ sep ++ c)%string ->
                 String.length pre <= String.length a) ->
    remove_first sep (pre ++ sep ++ suf) = (pre ++ suf)%string.
Proof.
  intros Hsep pre. induction pre as [|x pre IH]; intros suf Hfirst.
  - simpl. rewrite Hsep at 2. cbn [append remove_first].
    assert (H : startswith sep (String c0 (sep' ++ suf)) = true).
    { rewrite Hsep. apply (startswith_append (String c0 sep') suf). }
    rewrite H.
    change (String c0 (sep' ++ suf)) with (String c0 sep' ++ suf)%string.
    rewrite <- Hsep. apply drop_append.
  - cbn [append remove_first].
    destruct (startswith sep (String x (pre ++ sep ++ suf))) eqn:E.
    + exfalso. apply startswith_iff in E. destruct E as [r Hr].
      specialize (Hfirst EmptyString r). simpl in Hfirst.
      specialize (Hfirst Hr). lia.
    + f_equal. apply IH. intros a c Hac.
      specialize (Hfirst (String x a) c). simpl in Hfirst.
      rewrite Hac in Hfirst. specialize (Hfirst eq_refl). lia.
Qed.

Lemma append_inj_l (a b c : string) : (a ++ b)%string = (a ++ c)%string -> b = c.
Proof. induction a as [|x a IH]; simpl; intros H; [exact H | injection H; auto]. Qed.

Lemma append_eq_self (a b : string) : (a ++ b)%string = a -> b = EmptyString.
Proof.
  intros H. apply (append_inj_l a). now rewrite append_nil_r.
Qed.

(** An occurrence of the separator has a first one. *)
Lemma first_occurrence (sep : string) (s : string) :
  (exists a c, s = (a ++ sep ++ c)%string) ->
  exists pre suf,
    s = (pre ++ sep ++ suf)%string /\
    forall a c, s = (a ++ sep ++ c)%string ->
                String.length pre <= String.length a.
Proof.
  induction s as [|x s IH]; intros [a [c Hac]].
  - exists EmptyString, c.
    destruct a; [|discriminate]. simpl in Hac. split; [exact Hac|].
    intros; simpl; lia.
  - destruct (startswith sep (String x s)) eqn:E.
    + apply startswith_iff in E. destruct E as [r Hr].
      exists EmptyString, r. split; [exact Hr | intros; simpl; lia].
    + destruct a as [|y a].
      * exfalso. simpl in Hac.
        assert (H : startswith sep (String x s) = true)
          by (apply startswith_iff; now exists c).
        congruence.
      * simpl in Hac. injection Hac as -> Hs.
        destruct (IH (ex_intro _ a (ex_intro _ c Hs))) as [pre [suf [Hp Hmin]]].
        exists (String y pre), suf. split; [simpl; now rewrite <- Hp|].
        intros a' c' Ha'. destruct a' as [|z a'].
        -- exfalso. simpl in Ha'.
           assert (H : startswith sep (String y s) = true)
             by (apply startswith_iff; now exists c').
           congruence.
        -- simpl in Ha'. injection Ha' as _ Hs'.
           specialize (Hmin a' c' Hs'). simpl. lia.
Qed.

Lemma endswith_iff (p s : string) :
  endswith p s = true <-> exists a, s = (a ++ p)%string.
Proof.
  induction s as [|x s IH]; simpl.
  - rewrite String.eqb_eq. split.
    + intros ->. now exists EmptyString.
    + intros [a Ha]. destruct a; [simpl in Ha; now subst | discriminate].
  - rewrite orb_true_iff, String.eqb_eq, IH. split.
    + intros [-> | [a ->]]; [now exists EmptyString | now exists (String x a)].
    + intros [a Ha]. destruct a as [|y a].
      * left. simpl in Ha. now subst.
      * right. simpl in Ha. injection Ha as _ ->. now exists a.
Qed.

(** [basename] and [path_join] *)
Lemma basename_no_slash (n : string) :
  contains_char SLASH n = false -> basename n = n.
Proof. destruct n as [|c n]; simpl; [reflexivity | now intros ->]. Qed.

Lemma contains_char_append (c : ascii) (a b : string) :
  contains_char c (a ++ b) = contains_char c a || contains_char c b.
Proof. induction a as [|x a IH]; simpl; [reflexivity | now rewrite IH, orb_assoc]. Qed.

Lemma basename_append_slash (d n : string) :
  basename (d ++ String SLASH n) = basename (String SLASH n).
Proof.
  induction d as [|x d IH]; [reflexivity|].
  cbn [append basename].
  replace (contains_char SLASH (String x (d ++ String SLASH n))) with true.
  - exact IH.
  - symmetry. cbn [contains_char]. rewrite contains_char_append.
    cbn [contains_char]. rewrite Ascii.eqb_refl. cbn [orb].
    now rewrite !orb_true_r.
Qed.

Lemma basename_slash (n : string) :
  contains_char SLASH n = false -> basename (String SLASH n) = n.
Proof.
  intros H. cbn [basename contains_char]. rewrite Ascii.eqb_refl.
  cbn [orb]. now apply basename_no_slash.
Qed.

Lemma startswith_slash (n : string) :
  contains_char SLASH n = false -> startswith (chr SLASH) n = false.
Proof.
  destruct n as [|c n]; [reflexivity|]. cbn [contains_char].
  intros H. apply orb_false_iff in H. destruct H as [H _].
  unfold chr. cbn [startswith]. now rewrite Ascii.eqb_sym, H.
Qed.

Lemma basename_path_join (root name : string) :
  contains_char SLASH name = false ->
  basename (path_join root name) = name.
Proof.
  intros H. unfold path_join. rewrite (startswith_slash _ H).
  destruct (String.eqb root EmptyString) eqn:E1; simpl.
  - apply String.eqb_eq in E1. subst. now apply basename_no_slash.
  - destruct (endswith (chr SLASH) root) eqn:E2.
    + apply endswith_iff in E2. destruct E2 as [a ->].
      rewrite append_assoc. simpl.
      rewrite basename_append_slash. now apply basename_slash.
    + simpl. rewrite basename_append_slash. now apply basename_slash.
Qed.




Lemma count_char_lstrip (c : ascii) (s : string) :
  count_char c (lstrip s) <= count_char c s.
Proof.
  induction s as [|x s IH]; simpl; [lia|].
  destruct (is_space x); simpl; lia.
Qed.

Lemma count_char_rstrip (c : ascii) (s : string) :
  count_char c (rstrip s) <= count_char c s.
Proof.
  induction s as [|x s IH]; [simpl; lia|].
  cbn [rstrip]. destruct (rstrip s) as [|d t].
  - destruct (is_space x); simpl in *; lia.
  - cbn [count_char] in *. lia.
Qed.

Lemma count_char_strip (c : ascii) (s : string) :
  count_char c (strip s) <= count_char c s.
Proof.
  unfold strip. etransitivity; [apply count_char_rstrip | apply count_char_lstrip].
Qed.

Lemma count_tab_remove_line_ending (s : string) :
  count_char TAB (remove_line_ending s) = count_char TAB s.
Proof.
  induction s as [|x s IH]; [reflexivity|].
  cbn [remove_line_ending].
  destruct (Ascii.eqb x LF && String.eqb s EmptyString) eqn:E.
  - apply andb_true_iff in E. destruct E as [E1 E2].
    apply Ascii.eqb_eq in E1. apply String.eqb_eq in E2. now subst.
  - cbn [count_char]. now rewrite IH.
Qed.

(** Splitting on one character: one field more than separators, and
    joining the fields gives the text back. *)
Lemma split_aux_char (c a : ascii) (s : string) :
  split_aux (chr c) 0 (String a s) =
  let '(h, t) := split_aux (chr c) 0 s in
  if Ascii.eqb a c then (EmptyString, h :: t) else (String a h, t).
Proof.
  cbn [split_aux startswith chr String.length Nat.sub].
  rewrite (Ascii.eqb_sym c a).
  destruct (Ascii.eqb a c); simpl; destruct (split_aux _ 0 s); reflexivity.
Qed.

Lemma split_char_length (c : ascii) (s : string) :
  List.length (split (chr c) s) = S (count_char c s).
Proof.
  unfold split.
  assert (H : List.length (snd (split_aux (chr c) 0 s)) = count_char c s).
  { induction s as [|a s IH]; [reflexivity|].
    rewrite split_aux_char. cbn [count_char].
    destruct (split_aux (chr c) 0 s) as [h t].
    destruct (Ascii.eqb a c); simpl in *; lia. }
  destruct (split_aux (chr c) 0 s) as [h t]. simpl in *. lia.
Qed.


Lemma split_strip_length_le (line : string) :
  List.length (split (chr TAB) (strip line))
  <= List.length (split (chr TAB) line).
Proof.
  rewrite !split_char_length. apply le_n_S, count_char_strip.
Qed.

End StringFacts.

(* ================================================================== *)
(** ** Facts on lists and dictionaries *)
(* ================================================================== *)

Section DictFacts.

Context {V : Type}.

Lemma mem_In (x : string) (l : list string) : mem x l = true <-> In x l.
Proof.
  induction l as [|y l IH]; simpl; [split; [discriminate | tauto]|].
  rewrite orb_true_iff, String.eqb_eq, IH. tauto.
Qed.

Lemma mem_false (x : string) (l : list string) : mem x l = false <-> ~ In x l.
Proof.
  rewrite <- mem_In. destruct (mem x l); split; congruence.
Qed.

Lemma mem_app (x : string) (a b : list string) :
  mem x (a ++ b) = mem x a || mem x b.
Proof. induction a as [|y a IH]; simpl; [reflexivity | now rewrite IH, orb_assoc]. Qed.

Lemma has_mem (d : dict V) (k : string) : has d k = mem k (keys d).
Proof.
  unfold has. induction d as [|[k' v] d IH]; simpl; [reflexivity|].
  destruct (String.eqb k' k); [reflexivity | exact IH].
Qed.

Lemma get_None (d : dict V) (k : string) : get d k = None <-> ~ In k (keys d).
Proof.
  rewrite <- mem_false, <- has_mem. unfold has.
  destruct (get d k); split; congruence.
Qed.

Lemma get_In (d : dict V) (k : string) (v : V) :
  get d k = Some v -> In (k, v) d.
Proof.
  induction d as [|[k' v'] d IH]; simpl; [discriminate|].
  destruct (String.eqb k' k) eqn:E.
  - apply String.eqb_eq in E. intros H. injection H as ->. subst. now left.
  - intros H. right. now apply IH.
Qed.

Lemma get_set_same (d : dict V) (k : string) (v : V) :
  get (set d k v) k = Some v.
Proof.
  induction d as [|[k' v'] d IH]; simpl.
  - now rewrite String.eqb_refl.
  - destruct (String.eqb k' k) eqn:E; simpl; rewrite E; [reflexivity | exact IH].
Qed.

Lemma get_set_other (d : dict V) (k k' : string) (v : V) :
  k <> k' -> get (set d k v) k' = get d k'.
Proof.
  intros Hne. induction d as [|[k0 v0] d IH]; simpl.
  - apply String.eqb_neq in Hne. now rewrite Hne.
  - destruct (String.eqb k0 k) eqn:E; simpl.
    + apply String.eqb_eq in E. subst k0.
      apply String.eqb_neq in Hne. now rewrite Hne.
    + destruct (String.eqb k0 k'); [reflexivity | exact IH].
Qed.

Lemma set_set (d : dict V) (k : string) (v w : V) :
  set (set d k v) k w = set d k w.
Proof.
  induction d as [|[k' v'] d IH]; simpl.
  - now rewrite String.eqb_refl.
  - destruct (String.eqb k' k) eqn:E; simpl; rewrite E; [reflexivity | now rewrite IH].
Qed.

Lemma keys_set (d : dict V) (k : string) (v : V) :
  keys (set d k v) = if mem k (keys d) then keys d else keys d ++ [k].
Proof.
  unfold keys. induction d as [|[k' v'] d IH]; simpl; [reflexivity|].
  destruct (String.eqb k' k) eqn:E; simpl; [reflexivity|].
  rewrite IH. now destruct (mem k (map fst d)).
Qed.

Lemma NoDup_snoc (l : list string) (x : string) :
  NoDup l -> ~ In x l -> NoDup (l ++ [x]).
Proof.
  intros Hl Hx. induction Hl as [|y l Hy Hl IH]; simpl.
  - constructor; [tauto | constructor].
  - constructor.
    + rewrite in_app_iff. simpl. intros [H | [H | []]]; [tauto|].
      subst. apply Hx. now left.
    + apply IH. intros H. apply Hx. now right.
Qed.

Lemma NoDup_keys_set (d : dict V) (k : string) (v : V) :
  NoDup (keys d) -> NoDup (keys (set d k v)).
Proof.
  intros H. rewrite keys_set. destruct (mem k (keys d)) eqn:E; [exact H|].
  apply NoDup_snoc; [exact H | now apply mem_false].
Qed.

Lemma Forall_set (P : string * V -> Prop) (d : dict V) (k : string) (v : V) :
  Forall P d -> P (k, v) -> Forall P (set d k v).
Proof.
  intros Hd Hp. induction Hd as [|[k' v'] d H Hd IH]; simpl.
  - now constructor.
  - destruct (String.eqb k' k) eqn:E; constructor; auto.
    apply String.eqb_eq in E. now subst.
Qed.



End DictFacts.

(* ================================================================== *)
(** ** Facts on the aggregation *)
(* ================================================================== *)

Section AggregatorFacts.

(** The two steps of [record] amount to one update of the entry. *)
Lemma record_eq (gd : dict (dict string)) (g s v : string) :
  record gd g s v
  = set gd g (set (match get gd g with Some d => d | None => [] end) s v).
Proof.
  unfold record, has. destruct (get gd g) as [d|] eqn:E.
  - now rewrite E.
  - rewrite get_set_same. apply set_set.
Qed.

Lemma lookup_record_same (gd : dict (dict string)) (g s v : string) :
  lookup (record gd g s v) g s = Some v.
Proof.
  rewrite record_eq. unfold lookup. rewrite get_set_same. apply get_set_same.
Qed.

Lemma lookup_record_other (gd : dict (dict string)) (g s v g' s' : string) :
  (g', s') <> (g, s) ->
  lookup (record gd g s v) g' s' = lookup gd g' s'.
Proof.
  intros Hne. rewrite record_eq. unfold lookup.
  destruct (String.eqb_spec g g') as [<-|Hg].
  - rewrite get_set_same.
    assert (Hs : s <> s') by (intros <-; now apply Hne).
    rewrite (get_set_other _ _ _ _ Hs).
    now destruct (get gd g).
  - now rewrite (get_set_other _ _ _ _ Hg).
Qed.

Lemma keys_record (gd : dict (dict string)) (g s v : string) :
  keys (record gd g s v) = register_sample g (keys gd).
Proof. rewrite record_eq. apply keys_set. Qed.

Lemma well_formed_nil : well_formed [].
Proof. split; constructor. Qed.

Lemma well_formed_record (gd : dict (dict string)) (g s v : string) :
  well_formed gd -> well_formed (record gd g s v).
Proof.
  intros [Hk Hin]. rewrite record_eq. split.
  - now apply NoDup_keys_set.
  - apply Forall_set; [exact Hin|]. simpl.
    apply NoDup_keys_set.
    destruct (get gd g) as [d|] eqn:E; [|constructor].
    apply get_In in E. rewrite Forall_forall in Hin. apply (Hin _ E).
Qed.

Lemma well_formed_fold (rs : list record_t) (gd : dict (dict string)) :
  well_formed gd -> well_formed (fold_left store rs gd).
Proof.
  revert gd. induction rs as [|[[g s] v] rs IH]; intros gd H; simpl; [exact H|].
  apply IH. now apply well_formed_record.
Qed.



Lemma last_value_app (a b : list record_t) (g s : string) :
  last_value (a ++ b) g s
  = match last_value b g s with
    | Some v => Some v
    | None => last_value a g s
    end.
Proof.
  induction a as [|[[g' s'] v] a IH]; simpl.
  - now destruct (last_value b g s).
  - rewrite IH. now destruct (last_value b g s).
Qed.

Lemma lookup_fold_store (rs : list record_t) (gd : dict (dict string))
  (g s : string) :
  lookup (fold_left store rs gd) g s
  = match last_value rs g s with
    | Some v => Some v
    | None => lookup gd g s
    end.
Proof.
  revert gd. induction rs as [|[[g' s'] v] rs IH]; intros gd; [reflexivity|].
  cbn [fold_left store last_value]. rewrite IH.
  destruct (last_value rs g s); [reflexivity|].
  destruct (String.eqb_spec g' g) as [->|Hg]; simpl.
  - destruct (String.eqb_spec s' s) as [->|Hs].
    + apply lookup_record_same.
    + apply lookup_record_other. congruence.
  - apply lookup_record_other. congruence.
Qed.

(** Registering in turn keeps the first occurrences. *)
Lemma filter_twice {A} (f g : A -> bool) (l : list A) :
  filter f (filter g l) = filter (fun x => g x && f x) l.
Proof.
  induction l as [|x l IH]; simpl; [reflexivity|].
  destruct (g x); simpl; [destruct (f x)|]; now rewrite IH.
Qed.

Lemma fold_register (l acc : list string) :
  fold_left (fun ids x => register_sample x ids) l acc
  = acc ++ filter (fun y => negb (mem y acc)) (first_seen l).
Proof.
  revert acc. induction l as [|x l IH]; intros acc; simpl.
  - now rewrite app_nil_r.
  - rewrite IH. unfold register_sample.
    destruct (mem x acc) eqn:E; simpl.
    + f_equal. rewrite filter_twice. apply filter_ext. intros y.
      destruct (String.eqb_spec x y) as [<-|Hxy]; simpl; [now rewrite E|reflexivity].
    + rewrite <- app_assoc. simpl. do 2 f_equal.
      rewrite filter_twice. apply filter_ext. intros y.
      rewrite mem_app. simpl. rewrite orb_false_r, negb_orb.
      rewrite (String.eqb_sym x y). apply andb_comm.
Qed.

Lemma fold_register_nil (l : list string) :
  fold_left (fun ids x => register_sample x ids) l [] = first_seen l.
Proof.
  rewrite fold_register. simpl.
  clear. induction (first_seen l) as [|y r IH]; simpl; [reflexivity | now rewrite IH].
Qed.

Lemma first_seen_In (l : list string) (x : string) :
  In x (first_seen l) <-> In x l.
Proof.
  induction l as [|y l IH]; simpl; [tauto|].
  rewrite filter_In, IH, negb_true_iff, String.eqb_neq.
  destruct (String.string_dec y x); tauto.
Qed.

Lemma NoDup_filter_keep {A} (f : A -> bool) (l : list A) :
  NoDup l -> NoDup (filter f l).
Proof.
  induction 1 as [|x l Hx Hl IH]; simpl; [constructor|].
  destruct (f x); [constructor|]; auto.
  rewrite filter_In. tauto.
Qed.

Lemma first_seen_NoDup (l : list string) : NoDup (first_seen l).
Proof.
  induction l as [|y l IH]; simpl; constructor.
  - rewrite filter_In, negb_true_iff, String.eqb_neq. tauto.
  - now apply NoDup_filter_keep.
Qed.

Lemma keys_fold_store (rs : list record_t) (gd : dict (dict string)) :
  keys (fold_left store rs gd)
  = fold_left (fun ids x => register_sample x ids) (map gene_of rs) (keys gd).
Proof.
  revert gd. induction rs as [|[[g s] v] rs IH]; intros gd; [reflexivity|].
  cbn [fold_left store map]. rewrite IH, keys_record. reflexivity.
Qed.

(** The loops of the script store the records of the run, in order. *)
Lemma process_lines_records (p : params) (sid : string) (ls : list string)
  (gd : dict (dict string)) :
  fst (process_lines p sid ls gd) = fold_left store (line_records p sid ls) gd.
Proof.
  revert gd. induction ls as [|line rest IH]; intros gd; [reflexivity|].
  cbn [process_lines line_records].
  destruct (parse_line p line) as [[[g v]|]|msg]; simpl; auto.
Qed.

Lemma process_file_records (p : params) (sid : string) (f : file)
  (gd : dict (dict string)) :
  fst (process_file p sid f gd) = fold_left store (file_records p sid f) gd.
Proof.
  destruct f as [msg|ls fail]; [reflexivity|].
  unfold process_file, file_records.
  destruct (skip_header _ ls fail) as [rest|msg]; [|reflexivity].
  rewrite <- process_lines_records.
  now destruct (process_lines p sid rest gd) as [gd' [msg|]].
Qed.

Lemma process_one_gene_data (p : params) (path : string) (f : file) (st : state) :
  gene_data (process_one p (path, f) st)
  = fold_left store (file_records p (sample_id_of path) f) (gene_data st).
Proof.
  unfold process_one. rewrite <- process_file_records.
  now destruct (process_file p (sample_id_of path) f (gene_data st)).
Qed.

Lemma process_one_sample_ids (p : params) (path : string) (f : file) (st : state) :
  sample_ids (process_one p (path, f) st)
  = register_sample (sample_id_of path) (sample_ids st).
Proof.
  unfold process_one.
  now destruct (process_file p (sample_id_of path) f (gene_data st)).
Qed.

Lemma process_files_gene_data (p : params) (files : list (string * file))
  (st : state) :
  gene_data (process_files p files st)
  = fold_left store (run_records p files) (gene_data st).
Proof.
  revert st. induction files as [|[path f] files IH]; intros st; [reflexivity|].
  cbn [process_files run_records flat_map]. rewrite IH, process_one_gene_data.
  now rewrite fold_left_app.
Qed.

Lemma process_files_sample_ids (p : params) (files : list (string * file))
  (st : state) :
  sample_ids (process_files p files st)
  = fold_left (fun ids x => register_sample x ids)
              (map (fun e => sample_id_of (fst e)) files) (sample_ids st).
Proof.
  revert st. induction files as [|[path f] files IH]; intros st; [reflexivity|].
  cbn [process_files map fold_left fst]. now rewrite IH, process_one_sample_ids.
Qed.

End AggregatorFacts.

(* ================================================================== *)
(** ** Facts on the frame *)
(* ================================================================== *)

Section FrameFacts.

Lemma position_None (x : string) (l : list string) :
  position x l = None -> ~ In x l.
Proof.
  induction l as [|y l IH]; simpl; [tauto|].
  destruct (String.eqb_spec y x) as [->|Hne]; [discriminate|].
  destruct (position x l); [discriminate|]. intros _ [H|H]; [congruence | now apply IH].
Qed.

Lemma position_nth (x : string) (l : list string) (i : nat) :
  position x l = Some i -> nth_error l i = Some x.
Proof.
  revert i. induction l as [|y l IH]; intros i; simpl; [discriminate|].
  destruct (String.eqb_spec y x) as [->|Hne].
  - intros H. injection H as <-. reflexivity.
  - destruct (position x l) as [n|]; [|discriminate].
    intros H. injection H as <-. now apply IH.
Qed.

Lemma position_In (x : string) (l : list string) :
  In x l -> exists i, position x l = Some i.
Proof.
  intros H. destruct (position x l) as [i|] eqn:E; [now exists i|].
  now apply position_None in E.
Qed.

Lemma update_position {A} (h : string -> A) (f : A -> A) (x : string)
  (l : list string) (i : nat) :
  NoDup l -> position x l = Some i ->
  update i f (map h l)
  = map (fun y => if String.eqb y x then f (h y) else h y) l.
Proof.
  intros Hnd. revert i. induction Hnd as [|y l Hy Hnd IH]; intros i; simpl; [discriminate|].
  destruct (String.eqb_spec y x) as [->|Hne].
  - intros H. injection H as <-. simpl. f_equal.
    apply map_ext_in. intros z Hz.
    destruct (String.eqb_spec z x) as [->|_]; [tauto | reflexivity].
  - destruct (position x l) as [n|]; [|discriminate].
    intros H. injection H as <-. simpl. f_equal. now apply IH.
Qed.

(** Writing one cell of a frame whose cells are given by [cell]. *)
Lemma at_set_matrix (df : DataFrame) (cell : string -> string -> option string)
  (r c v : string) :
  NoDup (df_index df) -> NoDup (df_columns df) ->
  df_values df = matrix (df_index df) (df_columns df) cell ->
  df_index (at_set df r c v) = df_index df
  /\ df_columns (at_set df r c v) = df_columns df
  /\ df_index_name (at_set df r c v) = df_index_name df
  /\ df_values (at_set df r c v)
     = matrix (df_index df) (df_columns df)
         (fun r' c' => if String.eqb r' r && String.eqb c' c
                       then Some v else cell r' c').
Proof.
  intros Hi Hc Hv. unfold at_set, matrix in *.
  destruct (position r (df_index df)) as [i|] eqn:Ei.
  - destruct (position c (df_columns df)) as [j|] eqn:Ej.
    + cbn [df_index df_columns df_index_name df_values].
      repeat split. rewrite Hv.
      rewrite (update_position _ _ r _ i Hi Ei).
      apply map_ext. intros r'.
      destruct (String.eqb r' r); [|reflexivity].
      apply (update_position (cell r') (fun _ => Some v) c _ j Hc Ej).
    + repeat split. rewrite Hv. apply map_ext. intros r'.
      apply position_None in Ej.
      apply map_ext_in. intros c' Hc'.
      destruct (String.eqb_spec c' c) as [->|_]; [tauto|].
      now rewrite andb_false_r.
  - repeat split. rewrite Hv. apply position_None in Ei.
    apply map_ext_in. intros r' Hr'.
    destruct (String.eqb_spec r' r) as [->|_]; [tauto | reflexivity].
Qed.

Lemma matrix_ext (index columns : list string)
  (f g : string -> string -> option string) :
  (forall r c, f r c = g r c) ->
  matrix index columns f = matrix index columns g.
Proof.
  intros H. unfold matrix. apply map_ext. intros r. apply map_ext. intros c. apply H.
Qed.

(** The two loops that fill the frame visit the entries in order. *)
Lemma fill_frame_entries (df : DataFrame) (gd : dict (dict string)) :
  fill_frame df gd
  = fold_left (fun d (e : record_t) =>
                 let '(g, s, v) := e in at_set d g s v) (entries gd) df.
Proof.
  unfold fill_frame, entries. revert df.
  induction gd as [|[g samples] gd IH]; intros df; [reflexivity|].
  cbn [fold_left flat_map]. rewrite fold_left_app, IH. f_equal.
  clear. revert df. induction samples as [|[s v] samples IH]; intros df; [reflexivity|].
  simpl. apply IH.
Qed.

Lemma fold_at_set_matrix (es : list record_t) (df : DataFrame)
  (cell : string -> string -> option string) :
  NoDup (df_index df) -> NoDup (df_columns df) ->
  df_values df = matrix (df_index df) (df_columns df) cell ->
  let df' := fold_left (fun d (e : record_t) =>
                          let '(g, s, v) := e in at_set d g s v) es df in
  df_index df' = df_index df
  /\ df_columns df' = df_columns df
  /\ df_index_name df' = df_index_name df
  /\ df_values df'
     = matrix (df_index df) (df_columns df)
         (fun r c => match last_value es r c with
                     | Some v => Some v
                     | None => cell r c
                     end).
Proof.
  revert df cell. induction es as [|[[g s] v] es IH]; intros df cell Hi Hc Hv.
  - simpl. repeat split. exact Hv.
  - cbn [fold_left].
    destruct (at_set_matrix df cell g s v Hi Hc Hv) as [Ei [Ec [En Ev]]].
    rewrite <- Ei, <- Ec in Ev.
    assert (Hi' : NoDup (df_index (at_set df g s v))) by now rewrite Ei.
    assert (Hc' : NoDup (df_columns (at_set df g s v))) by now rewrite Ec.
    destruct (IH _ _ Hi' Hc' Ev) as [Fi [Fc [Fn Fv]]].
    cbv zeta. rewrite Fi, Fc, Fn, Fv, Ei, Ec, En. repeat split.
    apply matrix_ext. intros r c. cbn [last_value].
    destruct (last_value es r c); [reflexivity|].
    rewrite (String.eqb_sym r g), (String.eqb_sym c s).
    now destruct (String.eqb g r && String.eqb s c).
Qed.

Lemma last_value_other_gene (k g s : string) (d : dict string) :
  k <> g -> last_value (map (fun '(s', v) => (k, s', v)) d) g s = None.
Proof.
  intros Hne. induction d as [|[s0 v0] d IH]; [reflexivity|].
  cbn [map last_value]. rewrite IH.
  apply String.eqb_neq in Hne. now rewrite Hne.
Qed.

Lemma last_value_samples (k s : string) (d : dict string) :
  NoDup (keys d) ->
  last_value (map (fun '(s', v) => (k, s', v)) d) k s = get d s.
Proof.
  induction d as [|[s0 v0] d IH]; intros Hnd; [reflexivity|].
  inversion Hnd as [|? ? Hs Hd]; subst.
  cbn [map last_value get]. rewrite (IH Hd), String.eqb_refl. simpl.
  destruct (String.eqb_spec s0 s) as [->|_].
  - apply get_None in Hs. now rewrite Hs.
  - now destruct (get d s).
Qed.

(** With unique keys, the last entry of a pair is the one [lookup]
    finds. *)
Lemma last_value_entries (gd : dict (dict string)) (g s : string) :
  well_formed gd -> last_value (entries gd) g s = lookup gd g s.
Proof.
  unfold well_formed, lookup, entries.
  induction gd as [|[k d] gd IH]; intros [Hk Hin]; [reflexivity|].
  inversion Hk as [|? ? Hnk Hk']; subst.
  inversion Hin as [|? ? Hd Hin']; subst.
  cbn [flat_map get]. rewrite last_value_app, (IH (conj Hk' Hin')).
  destruct (String.eqb_spec k g) as [->|Hne].
  - apply get_None in Hnk. rewrite Hnk. now apply last_value_samples.
  - rewrite (last_value_other_gene k g s d Hne).
    destruct (get gd g) as [d'|]; [now destruct (get d' s) | reflexivity].
Qed.

Lemma combine_map {A B} (h : A -> B) (l : list A) :
  combine l (map h l) = map (fun x => (x, h x)) l.
Proof. induction l as [|x l IH]; simpl; [reflexivity | now rewrite IH]. Qed.

(** The frame that is written, as labels and a cell function. *)
Lemma build_frame_shape (gd : dict (dict string)) (ids : list string) :
  well_formed gd -> NoDup ids ->
  df_index (build_frame gd ids) = keys gd
  /\ df_columns (build_frame gd ids) = ids
  /\ df_index_name (build_frame gd ids) = Some "Gene"
  /\ df_values (build_frame gd ids)
     = matrix (keys gd) ids (fun g s => Some (cell_text gd g s)).
Proof.
  intros Hwf Hids. unfold build_frame. rewrite fill_frame_entries.
  assert (H0 : df_values (new_frame (keys gd) ids)
               = matrix (df_index (new_frame (keys gd) ids))
                        (df_columns (new_frame (keys gd) ids))
                        (fun _ _ => None)) by reflexivity.
  destruct (fold_at_set_matrix (entries gd) (new_frame (keys gd) ids) _
              (proj1 Hwf) Hids H0) as [Ei [Ec [En Ev]]].
  cbv zeta in *.
  cbn [set_index_name fillna df_index df_columns df_index_name df_values].
  rewrite Ei, Ec, Ev. cbn [new_frame df_index df_columns].
  repeat split. unfold matrix. rewrite map_map. apply map_ext. intros g.
  rewrite map_map. apply map_ext. intros s.
  rewrite (last_value_entries gd g s Hwf). unfold cell_text.
  now destruct (lookup gd g s).
Qed.

Lemma build_frame_rows (gd : dict (dict string)) (ids : list string) :
  well_formed gd -> NoDup ids ->
  csv_rows (build_frame gd ids) = table gd ids.
Proof.
  intros Hwf Hids.
  destruct (build_frame_shape gd ids Hwf Hids) as [Ei [Ec [En Ev]]].
  unfold csv_rows, table. rewrite Ei, Ec, En, Ev. f_equal.
  unfold matrix. rewrite combine_map, map_map. apply map_ext. intros g.
  now rewrite map_map.
Qed.

Lemma nth_error_map_position {A} (h : string -> A) (x : string)
  (l : list string) (i : nat) :
  position x l = Some i -> nth_error (map h l) i = Some (h x).
Proof.
  intros H. apply position_nth in H.
  now rewrite nth_error_map, H.
Qed.

Lemma at_get_build_frame (gd : dict (dict string)) (ids : list string)
  (g s : string) :
  well_formed gd -> NoDup ids -> In g (keys gd) -> In s ids ->
  at_get (build_frame gd ids) g s = Some (Some (cell_text gd g s)).
Proof.
  intros Hwf Hids Hg Hs.
  destruct (build_frame_shape gd ids Hwf Hids) as [Ei [Ec [En Ev]]].
  unfold at_get. rewrite Ei, Ec, Ev.
  destruct (position_In _ _ Hg) as [i Hi].
  destruct (position_In _ _ Hs) as [j Hj].
  rewrite Hi, Hj. unfold matrix.
  rewrite (nth_error_map_position _ g _ i Hi).
  apply (nth_error_map_position (fun c => Some (cell_text gd g c)) s _ j Hj).
Qed.

End FrameFacts.

(* ================================================================== *)
(** ** Facts on the discovery and on whole runs *)
(* ================================================================== *)

Section RunFacts.

(** A discovered path is a directory joined with a file name that ends
    in [.tsv], so its base name ends in [.tsv] too. *)
Lemma discovered_path (fs : list fs_entry) (input_dir path : string) (f : file) :
  In (path, f) (find_tsv_files input_dir fs) ->
  exists root name,
    path = path_join root name /\ endswith ".tsv" name = true.
Proof.
  intros Hin. unfold find_tsv_files in Hin.
  apply in_flat_map in Hin. destruct Hin as [[root files] [_ Hin]].
  apply in_map_iff in Hin. destruct Hin as [[name g] [Heq Hin]].
  injection Heq as <- <-.
  apply filter_In in Hin. destruct Hin as [_ Hend].
  now exists root, name.
Qed.

Lemma path_join_suffix (root name : string) :
  exists pre, path_join root name = (pre ++ name)%string.
Proof.
  unfold path_join. destruct (startswith (chr SLASH) name).
  - now exists EmptyString.
  - destruct (String.eqb root EmptyString || endswith (chr SLASH) root).
    + now exists root.
    + exists (root ++ chr SLASH)%string. now rewrite append_assoc.
Qed.

Lemma basename_append_no_slash (a b : string) :
  contains_char SLASH b = false ->
  basename (a ++ b) = (basename a ++ b)%string.
Proof.
  intros Hb. induction a as [|x a IH]; [now apply basename_no_slash|].
  cbn [append basename]. cbn [contains_char].
  rewrite contains_char_append, Hb, orb_false_r.
  destruct (Ascii.eqb x SLASH || contains_char SLASH a); [exact IH | reflexivity].
Qed.

Lemma discovered_basename (fs : list fs_entry) (input_dir path : string) (f : file) :
  In (path, f) (find_tsv_files input_dir fs) ->
  exists stem, basename path = (stem ++ ".tsv")%string.
Proof.
  intros Hin.
  destruct (discovered_path fs input_dir path f Hin) as [root [name [-> Hend]]].
  apply endswith_iff in Hend. destruct Hend as [stem ->].
  destruct (path_join_suffix root (stem ++ ".tsv")) as [pre ->].
  rewrite <- append_assoc.
  exists (basename (pre ++ stem)). now apply basename_append_no_slash.
Qed.

(** The state of a run that starts with nothing stored. *)
Lemma run_gene_data (p : params) (files : list (string * file)) (out : list string) :
  gene_data (process_files p files (initial out))
  = fold_left store (run_records p files) [].
Proof. apply process_files_gene_data. Qed.

Lemma run_sample_ids (p : params) (files : list (string * file)) (out : list string) :
  sample_ids (process_files p files (initial out))
  = first_seen (map (fun e => sample_id_of (fst e)) files).
Proof. rewrite process_files_sample_ids. apply fold_register_nil. Qed.

Lemma run_keys (p : params) (files : list (string * file)) (out : list string) :
  keys (gene_data (process_files p files (initial out)))
  = first_seen (map gene_of (run_records p files)).
Proof. rewrite run_gene_data, keys_fold_store. apply fold_register_nil. Qed.

Lemma run_well_formed (p : params) (files : list (string * file)) (out : list string) :
  well_formed (gene_data (process_files p files (initial out))).
Proof. rewrite run_gene_data. apply well_formed_fold, well_formed_nil. Qed.

Lemma run_lookup (p : params) (files : list (string * file)) (out : list string)
  (g s : string) :
  lookup (gene_data (process_files p files (initial out))) g s
  = last_value (run_records p files) g s.
Proof.
  rewrite run_gene_data, lookup_fold_store.
  now destruct (last_value (run_records p files) g s).
Qed.

Lemma run_rows (p : params) (files : list (string * file)) (out : list string) :
  let st := process_files p files (initial out) in
  csv_rows (build_frame (gene_data st) (sample_ids st))
  = table (gene_data st) (sample_ids st).
Proof.
  cbv zeta. apply build_frame_rows.
  - apply run_well_formed.
  - rewrite run_sample_ids. apply first_seen_NoDup.
Qed.

(** Records, and the lines and files they come from. *)
Lemma last_value_In (rs : list record_t) (g s v : string) :
  last_value rs g s = Some v -> In (g, s, v) rs.
Proof.
  induction rs as [|[[g' s'] v'] rs IH]; simpl; [discriminate|].
  destruct (last_value rs g s) as [w|].
  - intros H. right. now apply IH.
  - destruct (String.eqb_spec g' g) as [->|_]; simpl; [|discriminate].
    destruct (String.eqb_spec s' s) as [->|_]; [|discriminate].
    intros H. injection H as ->. now left.
Qed.

Lemma In_last_value (rs : list record_t) (g s v : string) :
  In (g, s, v) rs -> last_value rs g s <> None.
Proof.
  induction rs as [|[[g' s'] v'] rs IH]; simpl; [tauto|].
  intros [H|H].
  - injection H as -> -> ->. rewrite !String.eqb_refl. simpl.
    now destruct (last_value rs g s).
  - specialize (IH H). now destruct (last_value rs g s).
Qed.


Lemma line_records_sample (p : params) (sid : string) (ls : list string)
  (g s v : string) :
  In (g, s, v) (line_records p sid ls) -> s = sid.
Proof.
  induction ls as [|line rest IH]; simpl; [tauto|].
  destruct (parse_line p line) as [[[g' v']|]|msg]; simpl; [|assumption|tauto].
  intros [H|H]; [now injection H as _ <- _ | now apply IH].
Qed.

Lemma file_records_sample (p : params) (sid : string) (f : file) (g s v : string) :
  In (g, s, v) (file_records p sid f) -> s = sid.
Proof.
  destruct f as [msg|ls fail]; simpl; [tauto|].
  destruct (skip_header _ ls fail); [apply line_records_sample | simpl; tauto].
Qed.

Lemma run_records_sample (p : params) (files : list (string * file))
  (g s v : string) :
  In (g, s, v) (run_records p files) ->
  exists path f, In (path, f) files /\ s = sample_id_of path
                 /\ In (g, s, v) (file_records p s f).
Proof.
  unfold run_records. rewrite in_flat_map. intros [[path f] [Hin Hr]].
  exists path, f. pose proof (file_records_sample _ _ _ _ _ _ Hr) as ->.
  now repeat split.
Qed.

(** The loop that fills the frame writes only at labels of the frame:
    every entry of the mapping has its gene among the keys and its
    sample among the registered ids. *)
Lemma fill_labels_present (p : params) (files : list (string * file))
  (out : list string) (g s v : string) :
  let st := process_files p files (initial out) in
  In (g, s, v) (entries (gene_data st)) ->
  In g (keys (gene_data st)) /\ In s (sample_ids st).
Proof.
  cbv zeta. intros Hin. split.
  - unfold entries in Hin. apply in_flat_map in Hin.
    destruct Hin as [[g' d] [Hgd Hin]]. apply in_map_iff in Hin.
    destruct Hin as [[s' v'] [Heq _]]. injection Heq as <- _ _.
    unfold keys. apply in_map_iff. now exists (g', d).
  - apply In_last_value in Hin.
    rewrite (last_value_entries _ g s (run_well_formed p files out)) in Hin.
    rewrite run_lookup in Hin.
    destruct (last_value (run_records p files) g s) as [w|] eqn:E; [|congruence].
    apply last_value_In, run_records_sample in E.
    destruct E as [path [f [Hf [-> _]]]].
    rewrite run_sample_ids. apply first_seen_In.
    apply in_map_iff. now exists (path, f).
Qed.

End RunFacts.

(* ================================================================== *)
(** ** The sample parser: lines *)
(* ================================================================== *)

Section ParserClaims.

Lemma index_valid {A} (l : list A) (i : Z) :
  (i < Z.of_nat (List.length l))%Z -> (- Z.of_nat (List.length l) <= i)%Z ->
  exists x, index l i = Some x.
Proof.
  intros Hlt Hge. unfold index.
  destruct (0 <=? i)%Z eqn:E.
  - apply Z.leb_le in E.
    destruct (nth_error l (Z.to_nat i)) as [x|] eqn:En; [now exists x|].
    apply nth_error_None in En. lia.
  - apply Z.leb_gt in E.
    replace (0 <=? Z.of_nat (List.length l) + i)%Z with true
      by (symmetry; apply Z.leb_le; lia).
    destruct (nth_error l (Z.to_nat (Z.of_nat (List.length l) + i))) as [x|] eqn:En;
      [now exists x|].
    apply nth_error_None in En. lia.
Qed.




(** C5: a line with no more fields than the larger index is passed over:
    no pair, no exception, nothing stored.  The count may be taken on
    the stripped line (as the script does), on the line without its line
    ending, or on the line as it is. *)
Theorem malformed_line_is_skipped (p : params) (line : string)
  (fields : list string) :
  fields = split (chr TAB) (strip line)
  \/ fields = split (chr TAB) (remove_line_ending line)
  \/ fields = split (chr TAB) line ->
  (Z.of_nat (List.length fields)
   <= Z.max (gene_column_index p) (expression_column_index p))%Z ->
  parse_line p line = Normal None
  /\ (forall sid, line_records p sid [line] = [])
  /\ (forall sid gd, process_lines p sid [line] gd = (gd, None))
  /\ (forall sid rest gd,
        process_lines p sid (line :: rest) gd = process_lines p sid rest gd).
Proof.
  intros Hf Hle.
  assert (Hlen : List.length (split (chr TAB) (strip line)) <= List.length fields).
  { destruct Hf as [-> | [-> | ->]].
    - lia.
    - rewrite !split_char_length, count_tab_remove_line_ending.
      apply le_n_S, count_char_strip.
    - apply split_strip_length_le. }
  assert (Hp : parse_line p line = Normal None).
  { unfold parse_line.
    replace (Z.of_nat (List.length (split (chr TAB) (strip line)))
             <=? Z.max (gene_column_index p) (expression_column_index p))%Z
      with true by (symmetry; apply Z.leb_le; lia).
    reflexivity. }
  repeat split; intros; cbn [line_records process_lines]; now rewrite Hp.
Qed.

Lemma malformed_line_is_skipped_witness :
  parse_line default_params two_fields = Normal None.
Proof.
  apply (malformed_line_is_skipped default_params two_fields
           (split (chr TAB) (strip two_fields))).
  - left. reflexivity.
  - vm_compute. discriminate.
Defined.

End ParserClaims.

(* ================================================================== *)
(** ** The sample parser: files *)
(* ================================================================== *)

Section FileClaims.

Lemma skip_header_eof (n : nat) (ls : list string) :
  skip_header n ls None = Normal (skipn n ls).
Proof.
  revert ls. induction n as [|n IH]; intros ls; [reflexivity|].
  destruct ls as [|l ls]; simpl; [|apply IH].
  rewrite IH. now destruct n.
Qed.

Lemma skip_header_fail (n : nat) (ls : list string) (msg : string) :
  skip_header n ls (Some msg)
  = if (n <=? List.length ls)%nat then Normal (skipn n ls) else Raised msg.
Proof.
  revert ls. induction n as [|n IH]; intros ls; [reflexivity|].
  destruct ls as [|l ls]; simpl; [reflexivity | apply IH].
Qed.

(** C8: a readable file with at most [skip_rows] lines: the header loop
    reads what there is, no exception is raised, no pair is read and the
    mapping is left as it was. *)
Theorem short_file_yields_nothing (p : params) (ls : list string) :
  (Z.of_nat (List.length ls) <= skip_rows p)%Z ->
  skip_header (Z.to_nat (skip_rows p)) ls None = Normal []
  /\ (forall sid, file_records p sid (Opened ls None) = [])
  /\ (forall sid gd, process_file p sid (Opened ls None) gd = (gd, None))
  /\ (forall path st,
        let st' := process_one p (path, Opened ls None) st in
        gene_data st' = gene_data st
        /\ stdout st'
           = stdout st ++ [processing_message path (sample_id_of path)]).
Proof.
  intros Hle.
  assert (H : skip_header (Z.to_nat (skip_rows p)) ls None = Normal []).
  { rewrite skip_header_eof. f_equal. apply skipn_all2. lia. }
  repeat split; intros; unfold process_one, process_file, file_records;
    rewrite H; reflexivity.
Qed.

Lemma short_file_yields_nothing_witness :
  process_file default_params "A" (Opened six_headers None) [] = ([], None).
Proof.
  apply (short_file_yields_nothing default_params six_headers).
  vm_compute. discriminate.
Defined.

(** C9 (counterexample): the file [a.tsv.b.tsv] is discovered; its
    sample id is [a], while deleting the first [.tsv] from the base name
    gives [a.b.tsv]. *)
Lemma sample_id_counterexample :
  ~ sample_id_deletes_first_tsv
  /\ find_tsv_files "d" [FsFile "a.tsv.b.tsv" (Opened [] None)]
     = [("d/a.tsv.b.tsv", Opened [] None)]
  /\ sample_id_of "d/a.tsv.b.tsv" = "a"
  /\ remove_first ".tsv" (basename "d/a.tsv.b.tsv") = "a.b.tsv".
Proof.
  split; [|repeat split; reflexivity].
  intros H. specialize (H "d/a.tsv.b.tsv"). vm_compute in H. discriminate.
Qed.

(** C9 (amended): the sample id of a discovered path is the part of the
    base name before the first occurrence of [.tsv]; what follows that
    occurrence is dropped too, so the sample id is the base name with
    the occurrence deleted exactly when nothing follows it. *)
Theorem sample_id_is_text_before_first_tsv (fs : list fs_entry)
  (input_dir path : string) (f : file) :
  In (path, f) (find_tsv_files input_dir fs) ->
  exists pre suf,
    basename path = (pre ++ ".tsv" ++ suf)%string
    /\ (forall a c, basename path = (a ++ ".tsv" ++ c)%string ->
                    String.length pre <= String.length a)
    /\ sample_id_of path = pre
    /\ remove_first ".tsv" (basename path) = (pre ++ suf)%string
    /\ (sample_id_of path = remove_first ".tsv" (basename path)
        <-> suf = EmptyString).
Proof.
  intros Hin.
  destruct (discovered_basename fs input_dir path f Hin) as [stem Hstem].
  destruct (first_occurrence ".tsv" (basename path)) as [pre [suf [Hb Hmin]]].
  { exists stem, EmptyString. exact Hstem. }
  exists pre, suf.
  assert (Hid : sample_id_of path = pre).
  { unfold sample_id_of, split. rewrite Hb.
    pose proof (split_aux_first ".tsv" "." "tsv" eq_refl pre suf) as H.
    rewrite <- Hb in H. specialize (H Hmin). rewrite Hb in H.
    destruct (split_aux ".tsv" 0 (pre ++ ".tsv" ++ suf)) as [h t].
    exact H. }
  assert (Hrm : remove_first ".tsv" (basename path) = (pre ++ suf)%string).
  { rewrite Hb. apply (remove_first_at ".tsv" "." "tsv" eq_refl).
    rewrite <- Hb. exact Hmin. }
  repeat split; try assumption.
  - rewrite Hid, Hrm. intros H. symmetry in H. now apply append_eq_self in H.
  - intros ->. now rewrite Hid, Hrm, append_nil_r.
Qed.

Lemma sample_id_is_text_before_first_tsv_witness :
  exists pre suf,
    basename "d/a.tsv.b.tsv" = (pre ++ ".tsv" ++ suf)%string
    /\ sample_id_of "d/a.tsv.b.tsv" = pre.
Proof.
  destruct (sample_id_is_text_before_first_tsv
              [FsFile "a.tsv.b.tsv" (Opened [] None)] "d" "d/a.tsv.b.tsv"
              (Opened [] None))
    as [pre [suf [Hb [_ [Hid _]]]]];
    [left; reflexivity |].
  exists pre, suf. split; assumption.
Defined.

Lemma failing_file_raises (p : params) (sid : string) (f : file)
  (gd : dict (dict string)) :
  fails f = true -> exists msg, snd (process_file p sid f gd) = Some msg.
Proof.
  destruct f as [msg | ls [msg|]]; simpl; intros H; try discriminate.
  - now exists msg.
  - destruct (skip_header _ ls (Some msg)) as [rest|m]; [|now exists m].
    destruct (process_lines p sid rest gd) as [gd' [m|]]; [now exists m | now exists msg].
Qed.

(** C6 (counterexample): the reads of a file raise after its seventh
    line; the record of that line is in the mapping all the same. *)
Lemma failing_file_counterexample :
  ~ failing_file_stores_nothing
  /\ fails broken_after_line_7 = true
  /\ gene_data (process_one default_params ("d/A.tsv", broken_after_line_7)
                            (initial []))
     = [("TP53", [("A", "12.3")])].
Proof.
  split; [|split; reflexivity].
  intros H.
  specialize (H default_params "d/A.tsv" broken_after_line_7 (initial []) eq_refl).
  vm_compute in H. discriminate.
Qed.

(** C6 (amended): when a file cannot be opened, or its reads raise, the
    exception is caught and printed once with the path of the file, and
    the loop goes on with the remaining files.  A file that cannot be
    opened, or that fails within the skipped lines, stores no record; a
    file that fails later keeps the records of the lines read before. *)
Theorem failing_file_is_caught (p : params) (path : string) (f : file)
  (rest : list (string * file)) (st : state) :
  fails f = true ->
  let sid := sample_id_of path in
  let st' := process_one p (path, f) st in
  (exists msg,
      stdout st'
      = stdout st ++ [processing_message path sid; error_message path msg])
  /\ process_files p ((path, f) :: rest) st = process_files p rest st'
  /\ gene_data st' = fold_left store (file_records p sid f) (gene_data st)
  /\ (forall msg,
        f = OpenError msg ->
        gene_data st' = gene_data st
        /\ stdout st'
           = stdout st
             ++ [processing_message path sid; error_message path msg])
  /\ (forall ls msg,
        f = Opened ls (Some msg) ->
        (Z.of_nat (List.length ls) <= skip_rows p)%Z ->
        gene_data st' = gene_data st)
  /\ (forall ls msg,
        f = Opened ls (Some msg) ->
        gene_data st'
        = fst (process_lines p sid (skipn (Z.to_nat (skip_rows p)) ls)
                             (gene_data st))).
Proof.
  intros Hf sid st'.
  assert (Hgd : gene_data st'
                = fold_left store (file_records p sid f) (gene_data st))
    by apply process_one_gene_data.
  assert (Hlate : forall ls msg,
             f = Opened ls (Some msg) ->
             gene_data st'
             = fst (process_lines p sid (skipn (Z.to_nat (skip_rows p)) ls)
                                  (gene_data st))).
  { intros ls msg ->. rewrite Hgd, process_lines_records.
    unfold file_records. rewrite skip_header_fail.
    destruct (Z.to_nat (skip_rows p) <=? List.length ls)%nat eqn:E; [reflexivity|].
    apply Nat.leb_gt in E. rewrite skipn_all2 by lia. reflexivity. }
  split.
  { destruct (failing_file_raises p sid f (gene_data st) Hf) as [msg Hmsg].
    exists msg. subst st'. unfold process_one. fold sid.
    destruct (process_file p sid f (gene_data st)) as [gd exn].
    simpl in Hmsg. subst exn. cbn [stdout]. now rewrite <- app_assoc. }
  split; [reflexivity|].
  split; [exact Hgd|].
  split.
  { intros msg Heq. split; [now rewrite Hgd, Heq|].
    subst st' f. unfold process_one. cbn [process_file stdout].
    now rewrite <- app_assoc. }
  split; [|exact Hlate].
  intros ls msg Heq Hle. rewrite (Hlate ls msg Heq).
  rewrite skipn_all2 by lia. reflexivity.
Qed.

Lemma failing_file_is_caught_witness :
  process_files default_params
    [("d/A.tsv", OpenError "denied"); ("d/B.tsv", readable_A)] (initial [])
  = process_files default_params [("d/B.tsv", readable_A)]
      (process_one default_params ("d/A.tsv", OpenError "denied") (initial [])).
Proof.
  apply (failing_file_is_caught default_params "d/A.tsv" (OpenError "denied")
           [("d/B.tsv", readable_A)] (initial [])).
  reflexivity.
Defined.

End FileClaims.

(* ================================================================== *)
(** ** The aggregator and the emitted table *)
(* ================================================================== *)

Section TableClaims.

Lemma run_table (p : params) (files : list (string * file)) (out : list string) :
  let st := process_files p files (initial out) in
  csv_rows (build_frame (gene_data st) (sample_ids st))
  = rows_of_records (discovered_ids files) (run_records p files).
Proof.
  cbv zeta. rewrite run_rows. unfold table, rows_of_records.
  rewrite run_sample_ids, run_keys. fold (discovered_ids files). f_equal.
  apply map_ext. intros g. f_equal. apply map_ext. intros s.
  unfold cell_text. now rewrite run_lookup.
Qed.

Lemma run_output_text_eq (fs : list fs_entry) (input_dir output_file : string)
  (p : params) :
  let files := find_tsv_files input_dir fs in
  run_output_text (parse_gene_expression_files fs input_dir output_file p)
  = text_of_records (discovered_ids files) (run_records p files).
Proof.
  cbv zeta. unfold parse_gene_expression_files, aggregate, text_of_records, to_csv.
  cbn [run_output_text]. do 2 f_equal. apply run_table.
Qed.

Lemma register_sample_present (sid : string) (ids : list string) :
  In sid ids -> register_sample sid ids = ids.
Proof.
  intros H. unfold register_sample. apply mem_In in H. now rewrite H.
Qed.

Lemma register_sample_absent (sid : string) (ids : list string) :
  ~ In sid ids -> register_sample sid ids = ids ++ [sid].
Proof.
  intros H. unfold register_sample. apply mem_false in H. now rewrite H.
Qed.

Lemma discovered_ids_In (files : list (string * file)) (path : string) (f : file) :
  In (path, f) files -> In (sample_id_of path) (discovered_ids files).
Proof.
  intros H. unfold discovered_ids. apply in_map_iff. now exists (path, f).
Qed.

Lemma no_record_cell_NA (p : params) (files : list (string * file))
  (out : list string) (g s : string) :
  let st := process_files p files (initial out) in
  (forall v, ~ In (g, s, v) (run_records p files)) ->
  In g (keys (gene_data st)) -> In s (sample_ids st) ->
  at_get (build_frame (gene_data st) (sample_ids st)) g s = Some (Some "NA").
Proof.
  cbv zeta. intros Hno Hg Hs.
  rewrite at_get_build_frame; try assumption.
  - unfold cell_text. rewrite run_lookup.
    destruct (last_value (run_records p files) g s) as [v|] eqn:E; [|reflexivity].
    apply last_value_In in E. now apply Hno in E.
  - apply run_well_formed.
  - rewrite run_sample_ids. apply first_seen_NoDup.
Qed.





(** C7 (counterexample): a file whose reads raise after its seventh
    line, alone with its sample id, has a cell that is not [NA]; and a
    file that cannot be opened, whose sample id is registered already,
    leaves the mapping and the sample ids as they were. *)
Lemma registered_sample_counterexample :
  ~ failed_file_column_is_NA
  /\ ~ failure_changes_state
  /\ (let st := process_files default_params
                  [("d/A.tsv", broken_after_line_7)] (initial []) in
      at_get (build_frame (gene_data st) (sample_ids st)) "TP53" "A"
      = Some (Some "12.3"))
  /\ (let st := process_one default_params ("d2/A.tsv", OpenError "denied")
                  state_with_A in
      gene_data st = gene_data state_with_A
      /\ sample_ids st = sample_ids state_with_A).
Proof.
  split; [|split; [|split; [reflexivity | split; reflexivity]]].
  - intros H.
    specialize (H default_params [("d/A.tsv", broken_after_line_7)] []
                  "d/A.tsv" broken_after_line_7 (or_introl eq_refl) eq_refl).
    assert (Huniq : forall path' f',
               In (path', f') [("d/A.tsv", broken_after_line_7)] ->
               sample_id_of path' = sample_id_of "d/A.tsv" ->
               (path', f') = ("d/A.tsv", broken_after_line_7)).
    { intros path' f' [Heq | []] _. now symmetry. }
    specialize (H Huniq "TP53" (or_introl eq_refl)).
    vm_compute in H. discriminate.
  - intros H.
    apply (H default_params "d2/A.tsv" (OpenError "denied") state_with_A eq_refl).
    reflexivity.
Qed.

(** C7 (amended): the sample id of a discovered file is registered
    before the file is opened (appended when new, left alone when
    present), so it is a column of the frame whatever opening and
    reading the file gives; the cells of the column are all [NA] when no
    file with this sample id stores a record, which is the case of a
    file that cannot be opened and shares its sample id with no other
    file; a file that cannot be opened changes the state by its new
    sample id only. *)
Theorem sample_id_is_registered_before_open (p : params)
  (files : list (string * file)) (out : list string) (path : string) (f : file) :
  In (path, f) files ->
  let sid := sample_id_of path in
  let st := process_files p files (initial out) in
  let df := build_frame (gene_data st) (sample_ids st) in
  In sid (sample_ids st)
  /\ In sid (df_columns df)
  /\ (forall st0,
        sample_ids (process_one p (path, f) st0)
        = register_sample sid (sample_ids st0))
  /\ (forall st0, ~ In sid (sample_ids st0) ->
                  sample_ids (process_one p (path, f) st0)
                  = sample_ids st0 ++ [sid])
  /\ (forall st0, In sid (sample_ids st0) ->
                  sample_ids (process_one p (path, f) st0) = sample_ids st0)
  /\ (forall msg st0, f = OpenError msg ->
                      gene_data (process_one p (path, f) st0) = gene_data st0)
  /\ ((forall path' f', In (path', f') files ->
                        sample_id_of path' = sid ->
                        file_records p sid f' = []) ->
      forall g, In g (keys (gene_data st)) ->
                at_get df g sid = Some (Some "NA")).
Proof.
  intros Hin sid st df.
  assert (Hids : NoDup (sample_ids st))
    by (subst st; rewrite run_sample_ids; apply first_seen_NoDup).
  assert (Hsid : In sid (sample_ids st)).
  { subst st. rewrite run_sample_ids. apply first_seen_In.
    now apply (discovered_ids_In files path f). }
  split; [exact Hsid|].
  split.
  { subst df.
    destruct (build_frame_shape (gene_data st) (sample_ids st)
                (run_well_formed p files out) Hids) as [_ [Hc _]].
    now rewrite Hc. }
  split; [intros st0; apply process_one_sample_ids|].
  split.
  { intros st0 Hnew. rewrite process_one_sample_ids.
    now apply register_sample_absent. }
  split.
  { intros st0 Hold. rewrite process_one_sample_ids.
    now apply register_sample_present. }
  split.
  { intros msg st0 ->. now rewrite process_one_gene_data. }
  intros Hnone g Hg. apply no_record_cell_NA; try assumption.
  intros v Hv. apply run_records_sample in Hv.
  destruct Hv as [path' [f' [Hin' [Heq Hrec]]]].
  rewrite (Hnone path' f' Hin' (eq_sym Heq)) in Hrec. destruct Hrec.
Qed.

Lemma sample_id_is_registered_before_open_witness :
  In "A" (sample_ids (process_files default_params
                        [("d/A.tsv", OpenError "denied")] (initial []))).
Proof.
  apply (sample_id_is_registered_before_open default_params
           [("d/A.tsv", OpenError "denied")] [] "d/A.tsv" (OpenError "denied")).
  left. reflexivity.
Defined.

(** C10: the text written is a function of the discovered files (their
    paths and what reading them gives) and of the parameters, whatever
    else the two runs differ in: columns follow the discovery order of
    the sample ids, rows the order in which genes are first stored, and
    a cell is the value of the last record of its pair. *)
Theorem same_discovery_same_output (fs1 fs2 : list fs_entry)
  (dir1 dir2 out1 out2 : string) (p : params) :
  find_tsv_files dir1 fs1 = find_tsv_files dir2 fs2 ->
  run_output_text (parse_gene_expression_files fs1 dir1 out1 p)
  = run_output_text (parse_gene_expression_files fs2 dir2 out2 p)
  /\ run_output_text (parse_gene_expression_files fs1 dir1 out1 p)
     = text_of_records (discovered_ids (find_tsv_files dir1 fs1))
                       (run_records p (find_tsv_files dir1 fs1)).
Proof.
  intros Heq. split.
  - rewrite !run_output_text_eq. cbv zeta. now rewrite Heq.
  - apply run_output_text_eq.
Qed.

Lemma same_discovery_same_output_witness :
  run_output_text
    (parse_gene_expression_files two_sample_tree "d" "first.tsv" default_params)
  = run_output_text
      (parse_gene_expression_files two_sample_tree' "d" "second.tsv"
         default_params).
Proof.
  apply (same_discovery_same_output two_sample_tree two_sample_tree'
           "d" "d" "first.tsv" "second.tsv" default_params).
  reflexivity.
Defined.

Lemma sample_id_of_path_join (root name : string) :
  contains_char SLASH name = false ->
  sample_id_of (path_join root name) = hd EmptyString (split ".tsv" name).
Proof.
  intros H. unfold sample_id_of. now rewrite basename_path_join.
Qed.

Lemma skip_six (headers : list string) (line : string) :
  List.length headers = 6 ->
  skip_header 6 (headers ++ [line]) None = Normal [line].
Proof.
  intros H. rewrite skip_header_eof.
  do 7 (destruct headers as [|? headers]; try discriminate). reflexivity.
Qed.

(** C2: the end-to-end example.  The directory holds [A.tsv] and
    [B.tsv], listed in this order; each has six header lines, whatever
    they are, then the given seventh line, with or without a line
    ending, and no further line; with the default parameters the text
    written is the header [Gene A B] and the row [TP53 12.3 9.8]. *)
Theorem end_to_end_example (input_dir output_file : string)
  (headers_A headers_B : list string) (eol_A eol_B : string) :
  List.length headers_A = 6 ->
  List.length headers_B = 6 ->
  eol_A = EmptyString \/ eol_A = chr LF ->
  eol_B = EmptyString \/ eol_B = chr LF ->
  let fs :=
    [FsFile "A.tsv" (Opened (headers_A ++ [(line_A ++ eol_A)%string]) None);
     FsFile "B.tsv" (Opened (headers_B ++ [(line_B ++ eol_B)%string]) None)] in
  run_output_text
    (parse_gene_expression_files fs input_dir output_file default_params)
  = (with_lf (tsv_line ["Gene"; "A"; "B"])
     ++ with_lf (tsv_line ["TP53"; "12.3"; "9.8"]))%string.
Proof.
  intros HA HB HeA HeB fs.
  rewrite run_output_text_eq. cbv zeta.
  assert (Hfiles : find_tsv_files input_dir fs
                   = [(path_join input_dir "A.tsv",
                       Opened (headers_A ++ [(line_A ++ eol_A)%string]) None);
                      (path_join input_dir "B.tsv",
                       Opened (headers_B ++ [(line_B ++ eol_B)%string]) None)])
    by reflexivity.
  rewrite Hfiles. unfold discovered_ids, run_records.
  cbn [map flat_map fst file_records].
  rewrite !sample_id_of_path_join by reflexivity.
  change (Z.to_nat (skip_rows default_params)) with 6.
  rewrite (skip_six headers_A _ HA), (skip_six headers_B _ HB).
  destruct HeA as [-> | ->]; destruct HeB as [-> | ->]; reflexivity.
Qed.

Lemma end_to_end_example_witness :
  run_output_text
    (parse_gene_expression_files
       [FsFile "A.tsv" (Opened (six_headers ++ [(line_A ++ chr LF)%string]) None);
        FsFile "B.tsv" (Opened (six_headers ++ [(line_B ++ chr LF)%string]) None)]
       "gdc-blca" "gene_expression_matrix.tsv" default_params)
  = (with_lf (tsv_line ["Gene"; "A"; "B"])
     ++ with_lf (tsv_line ["TP53"; "12.3"; "9.8"]))%string.
Proof.
  apply (end_to_end_example "gdc-blca" "gene_expression_matrix.tsv"
           six_headers six_headers (chr LF) (chr LF));
    solve [reflexivity | right; reflexivity].
Defined.

End TableClaims.

(* ================================================================== *)
(** ** Beyond the specification: discovery *)
(* ================================================================== *)

Section DiscoveryProperties.







End DiscoveryProperties.

(* ================================================================== *)
(** ** Beyond the specification: lines *)
(* ================================================================== *)

Section LineProperties.

Lemma lstrip_all_space (w : string) : all_space w = true -> lstrip w = EmptyString.
Proof.
  induction w as [|c w IH]; [reflexivity|]. simpl.
  intros H. apply andb_true_iff in H. destruct H as [Hc Hw].
  rewrite Hc. now apply IH.
Qed.

Lemma rstrip_all_space (w : string) : all_space w = true -> rstrip w = EmptyString.
Proof.
  induction w as [|c w IH]; [reflexivity|]. simpl.
  intros H. apply andb_true_iff in H. destruct H as [Hc Hw].
  now rewrite (IH Hw), Hc.
Qed.

Lemma rstrip_append_space (t w : string) :
  all_space w = true -> rstrip (t ++ w) = rstrip t.
Proof.
  intros Hw. induction t as [|c t IH]; [now apply rstrip_all_space|].
  cbn [append rstrip]. now rewrite IH.
Qed.

Lemma strip_append_space (s w : string) :
  all_space w = true -> strip (s ++ w) = strip s.
Proof.
  intros Hw. unfold strip. induction s as [|c s IH].
  - simpl. rewrite (lstrip_all_space w Hw). reflexivity.
  - cbn [append lstrip]. destruct (is_space c); [exact IH|].
    now apply (rstrip_append_space (String c s) w).
Qed.

Lemma strip_prepend_space (w s : string) :
  all_space w = true -> strip (w ++ s) = strip s.
Proof.
  unfold strip. induction w as [|c w IH]; [reflexivity|]. simpl.
  intros H. apply andb_true_iff in H. destruct H as [Hc Hw].
  rewrite Hc. now apply IH.
Qed.

(** X6: whitespace before and after a line changes nothing: the line
    gives the same pair with or without its line ending, with a
    carriage return before it, or with spaces around it. *)
Theorem edge_whitespace_is_ignored (p : params) (l s r : string) :
  all_space l = true -> all_space r = true ->
  parse_line p (l ++ s ++ r) = parse_line p s.
Proof.
  intros Hl Hr. unfold parse_line.
  now rewrite (strip_prepend_space l _ Hl), (strip_append_space s r Hr).
Qed.

Lemma edge_whitespace_is_ignored_witness :
  parse_line default_params windows_line = parse_line default_params line_A.
Proof.
  apply (edge_whitespace_is_ignored default_params "  " line_A
           (chr CR ++ chr LF)); reflexivity.
Defined.

Lemma split_aux_char_free (c : ascii) (s : string) :
  contains_char c (fst (split_aux (chr c) 0 s)) = false
  /\ Forall (fun x => contains_char c x = false) (snd (split_aux (chr c) 0 s)).
Proof.
  induction s as [|a s [IHh IHt]]; [split; [reflexivity | constructor]|].
  rewrite split_aux_char.
  destruct (split_aux (chr c) 0 s) as [h t]. cbn [fst snd] in *.
  destruct (Ascii.eqb a c) eqn:E; cbn [fst snd].
  - split; [reflexivity | now constructor].
  - split; [|exact IHt]. cbn [contains_char]. now rewrite E, IHh.
Qed.

Lemma split_char_free (c : ascii) (s x : string) :
  In x (split (chr c) s) -> contains_char c x = false.
Proof.
  unfold split. destruct (split_aux_char_free c s) as [Hh Ht].
  destruct (split_aux (chr c) 0 s) as [h t]. cbn [fst snd] in *.
  intros [<- | Hin]; [exact Hh|].
  rewrite Forall_forall in Ht. now apply Ht.
Qed.

Lemma index_In {A} (l : list A) (i : Z) (x : A) : index l i = Some x -> In x l.
Proof.
  unfold index. destruct (0 <=? i)%Z.
  - apply nth_error_In.
  - destruct (0 <=? Z.of_nat (List.length l) + i)%Z; [apply nth_error_In | discriminate].
Qed.

(** X7: the gene name and the value of a pair are fields of the stripped
    line and hold no tab, so a stored value cannot break the columns of
    the table written. *)
Theorem parsed_pair_is_tab_free (p : params) (line gene value : string) :
  parse_line p line = Normal (Some (gene, value)) ->
  In gene (split (chr TAB) (strip line))
  /\ In value (split (chr TAB) (strip line))
  /\ contains_char TAB gene = false
  /\ contains_char TAB value = false.
Proof.
  unfold parse_line. set (parts := split (chr TAB) (strip line)).
  destruct (Z.of_nat (List.length parts) <=? _)%Z; [discriminate|].
  destruct (index parts (gene_column_index p)) as [g|] eqn:Eg; [|discriminate].
  destruct (index parts (expression_column_index p)) as [v|] eqn:Ev; [|discriminate].
  intros H. injection H as <- <-.
  apply index_In in Eg. apply index_In in Ev.
  repeat split; try assumption; now apply (split_char_free TAB (strip line)).
Qed.

Lemma parsed_pair_is_tab_free_witness :
  contains_char TAB "TP53" = false.
Proof.
  apply (parsed_pair_is_tab_free default_params padded_line "TP53" "12.3").
  reflexivity.
Defined.

Lemma parse_line_nonneg (p : params) (line : string) :
  (0 <= gene_column_index p)%Z -> (0 <= expression_column_index p)%Z ->
  exists r, parse_line p line = Normal r.
Proof.
  intros Hg Hv. unfold parse_line.
  set (parts := split (chr TAB) (strip line)).
  destruct (Z.of_nat (List.length parts)
            <=? Z.max (gene_column_index p) (expression_column_index p))%Z eqn:E;
    [now exists None|].
  apply Z.leb_gt in E.
  destruct (index_valid parts (gene_column_index p)) as [g Hgi]; [lia | lia |].
  destruct (index_valid parts (expression_column_index p)) as [v Hvi]; [lia | lia |].
  rewrite Hgi, Hvi. now exists (Some (g, v)).
Qed.

Lemma process_lines_nonneg (p : params) (sid : string) (ls : list string)
  (gd : dict (dict string)) :
  (0 <= gene_column_index p)%Z -> (0 <= expression_column_index p)%Z ->
  snd (process_lines p sid ls gd) = None.
Proof.
  intros Hg Hv. revert gd.
  induction ls as [|line rest IH]; intros gd; [reflexivity|].
  cbn [process_lines].
  destruct (parse_line_nonneg p line Hg Hv) as [[[g v]|] ->]; apply IH.
Qed.

(** X8: with column indices that are not negative no line can raise:
    every line gives a pair or is passed over, and a file that can be
    read to its end is processed without an exception. *)
Theorem non_negative_indices_never_raise (p : params) :
  (0 <= gene_column_index p)%Z -> (0 <= expression_column_index p)%Z ->
  (forall line, exists r, parse_line p line = Normal r)
  /\ (forall sid ls gd, snd (process_lines p sid ls gd) = None)
  /\ (forall sid ls gd, snd (process_file p sid (Opened ls None) gd) = None).
Proof.
  intros Hg Hv. split; [|split].
  - intros line. now apply parse_line_nonneg.
  - intros sid ls gd. now apply process_lines_nonneg.
  - intros sid ls gd. unfold process_file. rewrite skip_header_eof.
    pose proof (process_lines_nonneg p sid (skipn (Z.to_nat (skip_rows p)) ls)
                  gd Hg Hv) as H.
    destruct (process_lines p sid _ gd) as [gd' exn]. simpl in H. now subst.
Qed.

Lemma non_negative_indices_never_raise_witness :
  snd (process_file default_params "A" readable_A []) = None.
Proof.
  apply (non_negative_indices_never_raise default_params); discriminate.
Defined.

(** X9: a line that raises ends the file: the records of the lines
    before it stay, the lines after it are not read, and the exception
    is the one of that line. *)
Theorem raising_line_ends_the_file (p : params) (sid msg : string)
  (before after : list string) (line : string) (gd : dict (dict string)) :
  (forall l, In l before -> exists r, parse_line p l = Normal r) ->
  parse_line p line = Raised msg ->
  process_lines p sid (before ++ line :: after) gd
  = (fold_left store (line_records p sid before) gd, Some msg).
Proof.
  intros Hbefore Hline. revert gd.
  induction before as [|l before IH]; intros gd.
  - cbn [app process_lines]. now rewrite Hline.
  - cbn [app process_lines line_records].
    destruct (Hbefore l (or_introl eq_refl)) as [[[g v]|] ->];
      cbn [fold_left store]; apply IH; intros l' Hl'; apply Hbefore; now right.
Qed.

Lemma raising_line_ends_the_file_witness :
  process_lines negative_params "A" [three_fields; two_fields; three_fields] []
  = ([("a", [("A", "c")])], Some "list index out of range").
Proof.
  apply (raising_line_ends_the_file negative_params "A"
           "list index out of range" [three_fields] [three_fields] two_fields []).
  - intros l [<- | []]. now exists (Some ("a", "c")).
  - reflexivity.
Defined.

Lemma strip_all_space (line : string) :
  all_space line = true -> strip line = EmptyString.
Proof.
  intros H. unfold strip. now rewrite (lstrip_all_space line H).
Qed.

(** X10: a line of whitespace only is passed over as soon as one of the
    two indices is positive; with both indices 0 it stores the empty
    value under the empty gene name. *)
Theorem blank_line_edge (p : params) (line : string) :
  all_space line = true ->
  ((1 <= Z.max (gene_column_index p) (expression_column_index p))%Z ->
   parse_line p line = Normal None)
  /\ (gene_column_index p = 0%Z -> expression_column_index p = 0%Z ->
      parse_line p line = Normal (Some (EmptyString, EmptyString)))
  /\ (gene_column_index p = 0%Z -> expression_column_index p = 0%Z ->
      forall sid gd,
        lookup (fst (process_lines p sid [line] gd)) EmptyString sid
        = Some EmptyString).
Proof.
  intros H. unfold parse_line. rewrite (strip_all_space line H).
  change (split (chr TAB) EmptyString) with [EmptyString].
  cbn [List.length]. split; [|split].
  - intros Hmax.
    replace (Z.of_nat 1 <=? Z.max _ _)%Z with true
      by (symmetry; apply Z.leb_le; lia).
    reflexivity.
  - intros -> ->. reflexivity.
  - intros Hg Hv sid gd. cbn [process_lines]. unfold parse_line.
    rewrite (strip_all_space line H), Hg, Hv.
    change (split (chr TAB) EmptyString) with [EmptyString].
    cbn. apply lookup_record_same.
Qed.

Lemma blank_line_edge_witness :
  parse_line default_params (with_lf " ") = Normal None
  /\ parse_line (mkParams 0 0 0) (with_lf " ")
     = Normal (Some (EmptyString, EmptyString)).
Proof.
  split.
  - apply (blank_line_edge default_params (with_lf " ")); [reflexivity|].
    vm_compute. discriminate.
  - apply (blank_line_edge (mkParams 0 0 0) (with_lf " ")); reflexivity.
Defined.

End LineProperties.

(* ================================================================== *)
(** ** Beyond the specification: what is printed *)
(* ================================================================== *)

Section LogProperties.












End LogProperties.

(* ================================================================== *)
(** ** Beyond the specification: files and the mapping *)
(* ================================================================== *)

Section FileProperties.




(** X12: a [skip_rows] that is zero or negative skips nothing: the first
    line of the file is read as data. *)
Theorem non_positive_skip_rows_skips_nothing (p : params) (sid : string)
  (ls : list string) (fail : option string) :
  (skip_rows p <= 0)%Z ->
  file_records p sid (Opened ls fail) = line_records p sid ls
  /\ forall gd,
       fst (process_file p sid (Opened ls fail) gd)
       = fst (process_lines p sid ls gd).
Proof.
  intros H.
  assert (H0 : Z.to_nat (skip_rows p) = 0) by lia.
  split.
  - unfold file_records. now rewrite H0.
  - intros gd. unfold process_file. rewrite H0. cbn [skip_header].
    now destruct (process_lines p sid ls gd) as [gd' [msg|]].
Qed.

Lemma non_positive_skip_rows_skips_nothing_witness :
  file_records (mkParams 1 5 (-2)) "A" (Opened [with_lf line_A] None)
  = [("TP53", "A", "12.3")].
Proof.
  apply (non_positive_skip_rows_skips_nothing (mkParams 1 5 (-2)) "A"
           [with_lf line_A] None).
  discriminate.
Defined.

Lemma last_value_other_sample (rs : list record_t) (g s : string) :
  (forall g' s' v, In (g', s', v) rs -> s' <> s) ->
  last_value rs g s = None.
Proof.
  induction rs as [|[[g' s'] v] rs IH]; intros H; [reflexivity|].
  cbn [last_value]. rewrite IH by (intros; eapply H; right; eassumption).
  assert (Hne : s' <> s) by (eapply H; left; reflexivity).
  apply String.eqb_neq in Hne. now rewrite Hne, andb_false_r.
Qed.

(** X13: processing files only appends: the sample ids and the genes
    known before keep their places, new ones go to the end, and the
    values of a sample none of the files is named after stay as they
    were. *)
Theorem rows_and_columns_only_grow (p : params)
  (files : list (string * file)) (st : state) :
  (exists new_ids,
      sample_ids (process_files p files st) = sample_ids st ++ new_ids)
  /\ (exists new_genes,
         keys (gene_data (process_files p files st))
         = keys (gene_data st) ++ new_genes)
  /\ (forall g s,
        (forall path f, In (path, f) files -> sample_id_of path <> s) ->
        lookup (gene_data (process_files p files st)) g s
        = lookup (gene_data st) g s).
Proof.
  split; [|split].
  - rewrite process_files_sample_ids, fold_register. eexists. reflexivity.
  - rewrite process_files_gene_data, keys_fold_store, fold_register.
    eexists. reflexivity.
  - intros g s Hs. rewrite process_files_gene_data, lookup_fold_store.
    rewrite last_value_other_sample; [reflexivity|].
    intros g' s' v Hin. apply run_records_sample in Hin.
    destruct Hin as [path [f [Hin [-> _]]]]. now apply (Hs path f).
Qed.

Lemma rows_and_columns_only_grow_witness :
  lookup (gene_data (process_files default_params
                       [("d/B.tsv", readable_A)] state_with_A)) "TP53" "A"
  = lookup (gene_data state_with_A) "TP53" "A".
Proof.
  apply (rows_and_columns_only_grow default_params
           [("d/B.tsv", readable_A)] state_with_A).
  intros path f [H | []]. injection H as <- _. discriminate.
Defined.

(** X14: when the sample ids of the discovered files are all different,
    a column holds what its own file gave and nothing else: the value of
    a gene under a sample is the value of the last record of that gene
    in the file of the sample. *)
Theorem column_depends_on_its_file_only (p : params)
  (files : list (string * file)) (out : list string) (path : string)
  (f : file) (g : string) :
  NoDup (discovered_ids files) ->
  In (path, f) files ->
  let sid := sample_id_of path in
  lookup (gene_data (process_files p files (initial out))) g sid
  = last_value (file_records p sid f) g sid.
Proof.
  intros Hnd Hin sid. rewrite run_lookup.
  apply in_split in Hin. destruct Hin as [l1 [l2 ->]].
  unfold discovered_ids in Hnd. rewrite map_app in Hnd. cbn [map fst] in Hnd.
  apply NoDup_remove_2 in Hnd. rewrite in_app_iff in Hnd.
  unfold run_records. rewrite flat_map_app. cbn [flat_map].
  rewrite !last_value_app. fold sid.
  assert (Hother : forall l,
             ~ In sid (map (fun e => sample_id_of (fst e)) l) ->
             last_value (run_records p l) g sid = None).
  { intros l Hl. apply last_value_other_sample.
    intros g' s' v Hr. apply run_records_sample in Hr.
    destruct Hr as [path' [f' [Hin' [-> _]]]]. intros Heq. apply Hl.
    apply in_map_iff. now exists (path', f'). }
  fold (run_records p l1). fold (run_records p l2).
  rewrite (Hother l2) by tauto. rewrite (Hother l1) by tauto.
  now destruct (last_value (file_records p sid f) g sid).
Qed.

Lemma column_depends_on_its_file_only_witness :
  lookup (gene_data (process_files default_params
                       [("d/A.tsv", readable_A);
                        ("d/B.tsv", Opened (six_headers ++ [with_lf line_B]) None)]
                       (initial []))) "TP53" "B"
  = Some "9.8".
Proof.
  apply (column_depends_on_its_file_only default_params
           [("d/A.tsv", readable_A);
            ("d/B.tsv", Opened (six_headers ++ [with_lf line_B]) None)]
           [] "d/B.tsv" (Opened (six_headers ++ [with_lf line_B]) None) "TP53").
  - vm_compute. repeat constructor; simpl; intuition discriminate.
  - right. left. reflexivity.
Defined.

(** X15: files with the same sample id share a column, gene by gene: a
    file replaces the values of the genes it has a record for and
    leaves the other values of the column, and every other column, as
    they were. *)
Theorem same_sample_id_merges (p : params) (path : string) (f : file)
  (st : state) (g s : string) :
  let sid := sample_id_of path in
  let st' := process_one p (path, f) st in
  (s <> sid -> lookup (gene_data st') g s = lookup (gene_data st) g s)
  /\ lookup (gene_data st') g sid
     = match last_value (file_records p sid f) g sid with
       | Some v => Some v
       | None => lookup (gene_data st) g sid
       end.
Proof.
  intros sid st'. subst st'. rewrite process_one_gene_data. fold sid.
  split; [|apply lookup_fold_store].
  intros Hne. rewrite lookup_fold_store.
  rewrite last_value_other_sample; [reflexivity|].
  intros g' s' v Hin. apply file_records_sample in Hin. congruence.
Qed.

Lemma same_sample_id_merges_witness :
  let st := process_files default_params same_name_files (initial []) in
  lookup (gene_data st) "TP53" "A" = Some "7.7"
  /\ lookup (gene_data st) "BRCA1" "A" = Some "4.2"
  /\ lookup (gene_data st) "TP53" "B" = None.
Proof.
  cbv zeta. unfold same_name_files. cbn [process_files].
  set (st1 := process_one default_params _ (initial [])).
  split; [|split].
  - destruct (same_sample_id_merges default_params "d2/A.tsv"
                (Opened (six_headers ++ [with_lf line_A']) None) st1
                "TP53" "A") as [_ H].
    refine (eq_trans H _). reflexivity.
  - destruct (same_sample_id_merges default_params "d2/A.tsv"
                (Opened (six_headers ++ [with_lf line_A']) None) st1
                "BRCA1" "A") as [_ H].
    refine (eq_trans H _). reflexivity.
  - destruct (same_sample_id_merges default_params "d2/A.tsv"
                (Opened (six_headers ++ [with_lf line_A']) None) st1
                "TP53" "B") as [H _].
    refine (eq_trans (H _) _); [|reflexivity].
    intros E. vm_compute in E. discriminate.
Defined.

End FileProperties.

(* ================================================================== *)
(** ** Beyond the specification: sample ids and the text written *)
(* ================================================================== *)

Section OutputProperties.

Lemma tsv_occurrence_inside (a : string) :
  forall stem c,
    (stem ++ ".tsv")%string = (a ++ ".tsv" ++ c)%string ->
    String.length a < String.length stem ->
    occurs ".tsv" stem.
Proof.
  induction a as [|y a IH]; intros stem c Heq Hlen.
  - destruct stem as [|x1 [|x2 [|x3 [|x4 s4]]]]; simpl in *;
      try lia; try discriminate.
    injection Heq as -> -> -> -> _. now exists EmptyString, s4.
  - destruct stem as [|x stem]; [simpl in Hlen; lia|].
    simpl in Heq. injection Heq as -> Heq.
    destruct (IH stem c Heq) as [a' [c' ->]]; [simpl in Hlen; lia|].
    now exists (String y a'), c'.
Qed.

(** X16: the usual case of a file name: for [stem.tsv] in any directory,
    where [stem] holds no slash and no [.tsv] (dots are allowed), the
    sample id is [stem]. *)
Theorem usual_name_sample_id (root stem : string) :
  contains_char SLASH stem = false ->
  ~ occurs ".tsv" stem ->
  sample_id_of (path_join root (stem ++ ".tsv")) = stem.
Proof.
  intros Hslash Hocc.
  rewrite sample_id_of_path_join
    by (rewrite contains_char_append, Hslash; reflexivity).
  unfold split.
  pose proof (split_aux_first ".tsv" "." "tsv" eq_refl stem EmptyString) as H.
  change (".tsv" ++ EmptyString)%string with ".tsv" in H.
  destruct (split_aux ".tsv" 0 (stem ++ ".tsv")) as [h t].
  apply H. intros a c Heq.
  destruct (Nat.le_gt_cases (String.length stem) (String.length a)) as [Hle | Hgt];
    [exact Hle|].
  exfalso. apply Hocc. now apply (tsv_occurrence_inside a stem c).
Qed.

Lemma usual_name_sample_id_witness :
  sample_id_of (path_join "gdc-blca/0a1b" "x.rna_seq.gene_counts.tsv")
  = "x.rna_seq.gene_counts".
Proof.
  apply (usual_name_sample_id "gdc-blca/0a1b" "x.rna_seq.gene_counts").
  - reflexivity.
  - intros [a [c H]].
    repeat (destruct a as [|? a]; simpl in H;
            [discriminate | injection H as _ H]).
    destruct a; discriminate.
Defined.

Lemma csv_fields_plain (row : list string) :
  plain_row row -> map (csv_field TAB) row = row.
Proof.
  induction 1 as [|x row Hx _ IH]; [reflexivity|].
  cbn [map]. unfold csv_field at 1. now rewrite Hx, IH.
Qed.

Lemma writerow_plain (row : list string) :
  plain_row row -> row <> [EmptyString] ->
  writerow TAB row = (join (chr TAB) row ++ chr LF)%string.
Proof.
  intros Hp Hne. unfold writerow. rewrite (csv_fields_plain row Hp).
  destruct row as [|[|c x] [|y r]]; try reflexivity. now elim Hne.
Qed.

Lemma run_rows_not_single_empty (p : params) (files : list (string * file))
  (row : list string) :
  In row (rows_of_records (discovered_ids files) (run_records p files)) ->
  row <> [EmptyString].
Proof.
  unfold rows_of_records. intros [<- | Hin]; [discriminate|].
  apply in_map_iff in Hin. destruct Hin as [g [<- Hg]].
  apply first_seen_In, in_map_iff in Hg. destruct Hg as [[[g' s] v] [_ Hr]].
  apply run_records_sample in Hr. destruct Hr as [path [f [Hf [-> _]]]].
  pose proof (discovered_ids_In files path f Hf) as Hid.
  apply first_seen_In in Hid.
  destruct (first_seen (discovered_ids files)); [destruct Hid | discriminate].
Qed.

(** X17: when no field of the table holds a tab, a double quote or a
    line break, the text written is the rows as they are: the fields of
    a row joined by tabs, each row ended by a line feed, nothing
    quoted. *)
Theorem plain_table_is_written_verbatim (fs : list fs_entry)
  (input_dir output_file : string) (p : params) :
  let st := aggregate fs input_dir p in
  let rows := csv_rows (build_frame (gene_data st) (sample_ids st)) in
  Forall plain_row rows ->
  run_output_text (parse_gene_expression_files fs input_dir output_file p)
  = String.concat EmptyString
      (map (fun row => (join (chr TAB) row ++ chr LF)%string) rows).
Proof.
  intros st rows Hplain.
  assert (Hrows : rows = rows_of_records
                           (discovered_ids (find_tsv_files input_dir fs))
                           (run_records p (find_tsv_files input_dir fs))).
  { subst rows st. unfold aggregate. cbv zeta. apply run_table. }
  rewrite run_output_text_eq. cbv zeta. unfold text_of_records.
  rewrite <- Hrows. f_equal. apply map_ext_in. intros row Hrow.
  apply writerow_plain.
  - rewrite Forall_forall in Hplain. now apply Hplain.
  - rewrite Hrows in Hrow.
    exact (run_rows_not_single_empty p (find_tsv_files input_dir fs) row Hrow).
Qed.

Lemma plain_table_is_written_verbatim_witness :
  run_output_text
    (parse_gene_expression_files two_sample_tree "d" "o" default_params)
  = (with_lf (tsv_line ["Gene"; "A"; "B"])
     ++ with_lf (tsv_line ["TP53"; "12.3"; "NA"])
     ++ with_lf (tsv_line ["BRCA1"; "NA"; "4.2"]))%string.
Proof.
  rewrite (plain_table_is_written_verbatim two_sample_tree "d" "o"
             default_params).
  - reflexivity.
  - vm_compute. repeat constructor.
Defined.

End OutputProperties.

(* ================================================================== *)
(** ** Beyond the specification: where a value comes from *)
(* ================================================================== *)

Section Provenance.

Lemma line_records_In (p : params) (sid : string) (ls : list string)
  (g s v : string) :
  In (g, s, v) (line_records p sid ls) ->
  exists line, In line ls /\ parse_line p line = Normal (Some (g, v)).
Proof.
  induction ls as [|l rest IH]; simpl; [tauto|].
  destruct (parse_line p l) as [[[g' v']|]|msg] eqn:E; simpl.
  - intros [H | H].
    + injection H as -> _ ->. exists l. split; [now left | exact E].
    + destruct (IH H) as [line [Hin Hp]]. exists line. split; [now right | exact Hp].
  - intros H. destruct (IH H) as [line [Hin Hp]].
    exists line. split; [now right | exact Hp].
  - tauto.
Qed.

Lemma skip_header_Normal (n : nat) (ls rest : list string) (fail : option string) :
  skip_header n ls fail = Normal rest -> rest = skipn n ls.
Proof.
  destruct fail as [msg|].
  - rewrite skip_header_fail. destruct (n <=? List.length ls)%nat; congruence.
  - rewrite skip_header_eof. congruence.
Qed.

(** X18: the mapping holds nothing that was not read: a value stored
    for a gene under a sample is the value field of a line, after the
    skipped ones, of a discovered file that has this sample id, and the
    gene is the gene field of the same line. *)
Theorem stored_value_comes_from_a_line (p : params)
  (files : list (string * file)) (out : list string) (g s v : string) :
  lookup (gene_data (process_files p files (initial out))) g s = Some v ->
  exists path ls fail line,
    In (path, Opened ls fail) files
    /\ sample_id_of path = s
    /\ In line (skipn (Z.to_nat (skip_rows p)) ls)
    /\ parse_line p line = Normal (Some (g, v)).
Proof.
  rewrite run_lookup. intros H. apply last_value_In in H.
  apply run_records_sample in H. destruct H as [path [f [Hin [Hs Hr]]]].
  destruct f as [msg | ls fail]; [destruct Hr|].
  unfold file_records in Hr.
  destruct (skip_header (Z.to_nat (skip_rows p)) ls fail) as [rest|msg] eqn:E;
    [|destruct Hr].
  apply skip_header_Normal in E. subst rest.
  apply line_records_In in Hr. destruct Hr as [line [Hl Hp]].
  exists path, ls, fail, line. now repeat split.
Qed.

Lemma stored_value_comes_from_a_line_witness :
  exists path ls fail line,
    In (path, Opened ls fail) repeated_gene_files
    /\ sample_id_of path = "A"
    /\ In line (skipn 6 ls)
    /\ parse_line default_params line = Normal (Some ("TP53", "7.7")).
Proof.
  apply (stored_value_comes_from_a_line default_params repeated_gene_files []
           "TP53" "A" "7.7").
  reflexivity.
Defined.

End Provenance.
